(** * Cloud-policy client registration helper

    A shallow embedding of
    [chrome/browser/policy/cloud/cloud_policy_client_registration_helper.cc]:
    the two token helpers, the registration helper that chains token
    acquisition, user-info lookup and client registration, and the
    environment that drives it (token provider, user-info service, the shared
    [CloudPolicyClient] and the owner of the helper).

    C++ objects live in a small heap ([World]); every method is a computation
    in a state/error/trace monad [M]: the state is the heap, an error is a
    crash of the process, and the trace lists the calls made on collaborators
    in the order they are made. *)

From stdpp Require Import base gmap strings list.

Open Scope string_scope.

(** ** Build configuration and constants *)

(** The preprocessor symbols the file branches on, and the constants it takes
    from headers that are not part of the sources. *)
Record Config := {
  OS_ANDROID : bool;
  DCHECK_IS_ON : bool;
  kDeviceManagementServiceOAuth : string;   (* GaiaConstants:: *)
  oauth2_chrome_client_id : string;         (* GaiaUrls::GetInstance()-> *)
  oauth2_chrome_client_secret : string;
}.

Definition kServiceScopeGetUserInfo : string :=
  "https://www.googleapis.com/auth/userinfo.email".

Definition kGetHostedDomainKey : string := "hd".

(** ** Plain data *)

Definition ObserverId := nat.
Definition Request := nat.
Definition RegistrationType := nat.
Definition GoogleServiceAuthError := nat.
Definition Time := nat.

(** [base::DictionaryValue]: the user-info response, a string-keyed map. *)
Definition HasKey (data : gmap string string) (key : string) : bool :=
  bool_decide (is_Some (data !! key)).

(** [base::Bind(&...::OnTokenFetched, base::Unretained(this))] is the only
    [StringCallback] the registration helper builds; other callers of the
    token helpers may pass their own. *)
Inductive StringCallback :=
| Bind_OnTokenFetched
| Bind_other (id : nat).

(** What the caller-supplied completion [base::Closure] does when it runs.
    The source allows for it deleting the helper and freeing the client. *)
Inductive CallerAction := delete_helper | free_client.
#[global] Instance CallerAction_eq_dec : EqDecision CallerAction.
Proof. solve_decision. Defined.
Definition Closure := list CallerAction.

Inductive HelperKind := a_TokenServiceHelper | a_LoginTokenHelper | a_UserInfoFetcher.
#[global] Instance HelperKind_eq_dec : EqDecision HelperKind.
Proof. solve_decision. Defined.

(** Calls on collaborators and object lifetimes, as they happen. *)
Inductive Effect :=
| New (k : HelperKind)
| Delete (k : HelperKind)
| AddObserver_ (o : ObserverId)
| RemoveObserver_ (o : ObserverId)
| Register_ (type : RegistrationType) (auth_token client_id : string)
            (is_auto_enrollment : bool) (requisition : string)
| StartRequest_ (scopes : gset string)
| StartRequestForUsername_ (username : string) (scopes : gset string)
| AccessTokenFetcher_Start_ (client_id client_secret refresh_token : string)
                            (scopes : list string)
| UserInfoFetcher_Start_ (access_token : string)
| Run_StringCallback (cb : StringCallback) (arg : string)
| Run_Closure
| NotReached_logged.

Inductive Fault := DcheckFailure | NullDereference | UseAfterFree.

(** ** The monad *)

Inductive Outcome (S A : Type) :=
| Ok (t : list Effect) (a : A) (s : S)
| Crash (t : list Effect) (f : Fault).
Arguments Ok {S A} t a s.
Arguments Crash {S A} t f.

Definition effects {S A} (o : Outcome S A) : list Effect :=
  match o with Ok t _ _ => t | Crash t _ => t end.

Definition state_of {S A} (o : Outcome S A) : option S :=
  match o with Ok _ _ s => Some s | Crash _ _ => None end.

Definition after {S A} (t : list Effect) (o : Outcome S A) : Outcome S A :=
  match o with
  | Ok t' a s => Ok (t ++ t') a s
  | Crash t' f => Crash (t ++ t') f
  end.

Section Monad.
Context {S : Type}.

Definition M (A : Type) : Type := S -> Outcome S A.

Definition ret {A} (a : A) : M A := fun s => Ok [] a s.

Definition bind {A B} (m : M A) (k : A -> M B) : M B :=
  fun s => match m s with
           | Ok t a s' => after t (k a s')
           | Crash t f => Crash t f
           end.

Definition crash {A} (f : Fault) : M A := fun _ => Crash [] f.
Definition emit (e : Effect) : M unit := fun s => Ok [e] tt s.
End Monad.
Arguments M : clear implicits.

Notation "'let*' x ':=' m 'in' k" := (bind m (fun x => k))
  (at level 10, x name, m at level 100, k at level 200).
Notation "m '>>' k" := (bind m (fun _ => k))
  (at level 90, right associativity).

(** [DCHECK(cond)] (the macro is not part of the sources; whether assertions
    are compiled in is a parameter of the build): when they are, the
    condition is evaluated and a false one is fatal; otherwise the statement
    is absent. *)
Definition DCHECK {S} (cfg : Config) (cond : M S bool) : M S unit :=
  if DCHECK_IS_ON cfg then
    let* holds := cond in
    if holds then ret tt else crash DcheckFailure
  else ret tt.

(** Modelled from the spec: the [NOTREACHED()] macro ([base/logging.h] is not
    part of the sources). The spec has the helper log the defect and carry
    on with the attempt. *)
Definition NOTREACHED {S} : M S unit := emit NotReached_logged.

(** [DVLOG(1) << ...] and [DLOG(WARNING) << ...] write a log line only. *)
Definition DVLOG {S} (line : string) : M S unit := ret tt.

(** ** Objects *)

(** Modelled from the spec: [CloudPolicyClient] (its source is not part of
    the sources): an observer set with idempotent removal, a registration
    flag, and an asynchronous [Register] whose completion is signalled to the
    observers only. *)
Record CloudPolicyClient := {
  observers_ : gset ObserverId;
  is_registered : bool;
}.

(** Modelled from the spec: [OAuth2TokenService] (the identity token
    service, not part of the sources) as far as the helper uses it: whether
    a refresh token is available, and the request object the next
    [StartRequest] returns. *)
Record OAuth2TokenService := {
  RefreshTokenIsAvailable : bool;
  next_request : Request;
}.

Inductive OAuth2AccessTokenFetcher := new_OAuth2AccessTokenFetcher.
Inductive UserInfoFetcher := new_UserInfoFetcher.
Inductive ClientPtr := the_client.
#[global] Instance ClientPtr_eq_dec : EqDecision ClientPtr.
Proof. solve_decision. Defined.
Inductive ContextPtr := the_context.

Record TokenServiceHelper := {
  tsh_callback_ : option StringCallback;
  tsh_token_request_ : option Request;
}.

Record LoginTokenHelper := {
  lth_callback_ : option StringCallback;
  lth_oauth2_access_token_fetcher_ : option OAuth2AccessTokenFetcher;
}.

Record CloudPolicyClientRegistrationHelper := {
  context_ : option ContextPtr;
  client_ : option ClientPtr;
  should_force_load_policy_ : bool;
  registration_type_ : RegistrationType;
  callback_ : option Closure;
  token_service_helper_ : option TokenServiceHelper;
  login_token_helper_ : option LoginTokenHelper;
  user_info_fetcher_ : option UserInfoFetcher;
  oauth_access_token_ : string;
}.

Definition set_client_ v h :=
  {| context_ := context_ h; client_ := v;
     should_force_load_policy_ := should_force_load_policy_ h;
     registration_type_ := registration_type_ h; callback_ := callback_ h;
     token_service_helper_ := token_service_helper_ h;
     login_token_helper_ := login_token_helper_ h;
     user_info_fetcher_ := user_info_fetcher_ h;
     oauth_access_token_ := oauth_access_token_ h |}.

Definition set_callback_ v h :=
  {| context_ := context_ h; client_ := client_ h;
     should_force_load_policy_ := should_force_load_policy_ h;
     registration_type_ := registration_type_ h; callback_ := v;
     token_service_helper_ := token_service_helper_ h;
     login_token_helper_ := login_token_helper_ h;
     user_info_fetcher_ := user_info_fetcher_ h;
     oauth_access_token_ := oauth_access_token_ h |}.

Definition set_token_service_helper_ v h :=
  {| context_ := context_ h; client_ := client_ h;
     should_force_load_policy_ := should_force_load_policy_ h;
     registration_type_ := registration_type_ h; callback_ := callback_ h;
     token_service_helper_ := v;
     login_token_helper_ := login_token_helper_ h;
     user_info_fetcher_ := user_info_fetcher_ h;
     oauth_access_token_ := oauth_access_token_ h |}.

Definition set_login_token_helper_ v h :=
  {| context_ := context_ h; client_ := client_ h;
     should_force_load_policy_ := should_force_load_policy_ h;
     registration_type_ := registration_type_ h; callback_ := callback_ h;
     token_service_helper_ := token_service_helper_ h;
     login_token_helper_ := v;
     user_info_fetcher_ := user_info_fetcher_ h;
     oauth_access_token_ := oauth_access_token_ h |}.

Definition set_user_info_fetcher_ v h :=
  {| context_ := context_ h; client_ := client_ h;
     should_force_load_policy_ := should_force_load_policy_ h;
     registration_type_ := registration_type_ h; callback_ := callback_ h;
     token_service_helper_ := token_service_helper_ h;
     login_token_helper_ := login_token_helper_ h;
     user_info_fetcher_ := v;
     oauth_access_token_ := oauth_access_token_ h |}.

Definition set_oauth_access_token_ v h :=
  {| context_ := context_ h; client_ := client_ h;
     should_force_load_policy_ := should_force_load_policy_ h;
     registration_type_ := registration_type_ h; callback_ := callback_ h;
     token_service_helper_ := token_service_helper_ h;
     login_token_helper_ := login_token_helper_ h;
     user_info_fetcher_ := user_info_fetcher_ h;
     oauth_access_token_ := v |}.

(** The heap: the registration helper (at address [this]) and the shared
    client it points to. A cell is [None] once its object has been freed. *)
Record World := {
  this : ObserverId;
  helper : option CloudPolicyClientRegistrationHelper;
  client : option CloudPolicyClient;
}.

Definition set_helper v w := {| this := this w; helper := v; client := client w |}.
Definition set_client v w := {| this := this w; helper := helper w; client := v |}.

Definition non_null {T} (p : option T) : bool :=
  match p with Some _ => true | None => false end.

(** [std::string::empty()]. *)
Definition string_empty (s : string) : bool :=
  match s with EmptyString => true | String _ _ => false end.

(** ** Heap access *)

(** Reading a member of [*this]. *)
Definition self : M World CloudPolicyClientRegistrationHelper :=
  fun w => match helper w with
           | Some h => Ok [] h w
           | None => Crash [] UseAfterFree
           end.

(** Assigning a member of [*this]. *)
Definition assign (f : CloudPolicyClientRegistrationHelper ->
                       CloudPolicyClientRegistrationHelper) : M World unit :=
  let* h := self in
  fun w => Ok [] tt (set_helper (Some (f h)) w).

(** Following a pointer member of [*this]. *)
Definition follow {T} (member : CloudPolicyClientRegistrationHelper -> option T)
  : M World T :=
  let* h := self in
  match member h with
  | Some x => ret x
  | None => crash NullDereference
  end.

(** Following a pointer to the client. *)
Definition deref (p : option ClientPtr) : M World CloudPolicyClient :=
  match p with
  | None => crash NullDereference
  | Some the_client =>
      fun w => match client w with
               | Some c => Ok [] c w
               | None => Crash [] UseAfterFree
               end
  end.

Definition store_client (c : CloudPolicyClient) : M World unit :=
  fun w => Ok [] tt (set_client (Some c) w).

Definition this_ptr : M World ObserverId := fun w => Ok [] (this w) w.

(** [scoped_ptr<T>::reset(p)]: deletes the object held, if any, then holds
    [p]. *)
Definition reset {T} (k : HelperKind)
    (member : CloudPolicyClientRegistrationHelper -> option T)
    (set_member : option T -> CloudPolicyClientRegistrationHelper ->
                  CloudPolicyClientRegistrationHelper)
    (p : option T) : M World unit :=
  let* h := self in
  (if non_null (member h) then emit (Delete k) else ret tt) >>
  assign (set_member p).

(** ** The client's interface *)

(** Modelled from the spec: [CloudPolicyClient::AddObserver]. *)
Definition AddObserver (p : option ClientPtr) (observer : ObserverId)
  : M World unit :=
  let* c := deref p in
  emit (AddObserver_ observer) >>
  store_client {| observers_ := observers_ c ∪ {[observer]};
                  is_registered := is_registered c |}.

(** Modelled from the spec: [CloudPolicyClient::RemoveObserver], idempotent. *)
Definition RemoveObserver (p : option ClientPtr) (observer : ObserverId)
  : M World unit :=
  let* c := deref p in
  emit (RemoveObserver_ observer) >>
  store_client {| observers_ := observers_ c ∖ {[observer]};
                  is_registered := is_registered c |}.

(** Modelled from the spec: [CloudPolicyClient::is_registered]. *)
Definition is_registered_ (p : option ClientPtr) : M World bool :=
  let* c := deref p in
  ret (is_registered c).

(** Modelled from the spec: [CloudPolicyClient::Register]: the request
    leaves; the answer comes later, as a notification to the observers. *)
Definition Register (p : option ClientPtr) (type : RegistrationType)
    (auth_token client_id : string) (is_auto_enrollment : bool)
    (requisition : string) : M World unit :=
  let* c := deref p in
  emit (Register_ type auth_token client_id is_auto_enrollment requisition).

(** Modelled from the spec: [OAuth2TokenService::StartRequest] hands back
    the request object; the answer arrives later through the consumer. *)
Definition StartRequest (token_service : OAuth2TokenService)
    (scopes : gset string) : M World Request :=
  emit (StartRequest_ scopes) >> ret (next_request token_service).

(** Modelled from the spec: the Android variant, which also takes the
    username. *)
Definition StartRequestForUsername (token_service : OAuth2TokenService)
    (username : string) (scopes : gset string) : M World Request :=
  emit (StartRequestForUsername_ username scopes) >>
  ret (next_request token_service).

(** ** CloudPolicyClientRegistrationHelper: completion and teardown *)

(** [~CloudPolicyClientRegistrationHelper()]. *)
Definition destructor : M World unit :=
  let* h := self in
  let* this := this_ptr in
  if non_null (client_ h) then RemoveObserver (client_ h) this else ret tt.

(** [delete helper]: the destructor body, then the [scoped_ptr] members
    release what they hold, then the storage goes. *)
Definition delete_this : M World unit :=
  destructor >>
  reset a_UserInfoFetcher user_info_fetcher_ set_user_info_fetcher_ None >>
  reset a_LoginTokenHelper login_token_helper_ set_login_token_helper_ None >>
  reset a_TokenServiceHelper token_service_helper_
        set_token_service_helper_ None >>
  let* _ := self in
  fun w => Ok [] tt (set_helper None w).

(** The owner of the client frees it. *)
Definition free_the_client : M World unit :=
  fun w => match client w with
           | Some _ => Ok [] tt (set_client None w)
           | None => Crash [] UseAfterFree
           end.

Definition perform (a : CallerAction) : M World unit :=
  match a with
  | delete_helper => delete_this
  | free_client => free_the_client
  end.

Fixpoint perform_all (actions : list CallerAction) : M World unit :=
  match actions with
  | [] => ret tt
  | a :: rest => perform a >> perform_all rest
  end.

(** [callback_.Run()] on a [base::Closure]. *)
Definition Closure_Run (callback : option Closure) : M World unit :=
  match callback with
  | None => crash NullDereference
  | Some actions => emit Run_Closure >> perform_all actions
  end.

Definition RequestCompleted : M World unit :=
  let* h := self in
  if non_null (client_ h) then
    let* this := this_ptr in
    RemoveObserver (client_ h) this >>
    (* |client_| may be freed by the callback so clear it now. *)
    assign (set_client_ None) >>
    Closure_Run (callback_ h)
  else ret tt.

(** ** CloudPolicyClientRegistrationHelper: the phases *)

Definition OnTokenFetched (cfg : Config) (access_token : string)
  : M World unit :=
  (if OS_ANDROID cfg then ret tt
   else reset a_LoginTokenHelper login_token_helper_
              set_login_token_helper_ None) >>
  reset a_TokenServiceHelper token_service_helper_
        set_token_service_helper_ None >>
  if string_empty access_token then
    DVLOG "Could not fetch access token" >>
    RequestCompleted
  else
    (* Cache the access token to be used after the GetUserInfo call. *)
    assign (set_oauth_access_token_ access_token) >>
    DVLOG "Fetched new scoped OAuth token" >>
    emit (New a_UserInfoFetcher) >>
    reset a_UserInfoFetcher user_info_fetcher_ set_user_info_fetcher_
          (Some new_UserInfoFetcher) >>
    let* _ := follow user_info_fetcher_ in
    let* h := self in
    emit (UserInfoFetcher_Start_ (oauth_access_token_ h)).

Definition OnGetUserInfoFailure (error : GoogleServiceAuthError)
  : M World unit :=
  DVLOG "Failed to fetch user info from GAIA" >>
  reset a_UserInfoFetcher user_info_fetcher_ set_user_info_fetcher_ None >>
  RequestCompleted.

Definition OnGetUserInfoSuccess (data : gmap string string) : M World unit :=
  reset a_UserInfoFetcher user_info_fetcher_ set_user_info_fetcher_ None >>
  let* h := self in
  if negb (HasKey data kGetHostedDomainKey)
     && negb (should_force_load_policy_ h) then
    DVLOG "User not from a hosted domain - skipping registration" >>
    RequestCompleted
  else
    DVLOG "Registering CloudPolicyClient for user from hosted domain" >>
    let* registered := is_registered_ (client_ h) in
    if registered then
      (* Client should not be registered yet. *)
      NOTREACHED >>
      RequestCompleted
    else
      Register (client_ h) (registration_type_ h) (oauth_access_token_ h)
               "" false "".

Definition OnPolicyFetched (client : option ClientPtr) : M World unit :=
  ret tt.

Definition OnRegistrationStateChanged (cfg : Config)
    (client : option ClientPtr) : M World unit :=
  DVLOG "Client registration succeeded" >>
  DCHECK cfg (let* h := self in ret (bool_decide (client = client_ h))) >>
  DCHECK cfg (is_registered_ client) >>
  RequestCompleted.

Definition OnClientError (cfg : Config) (client : option ClientPtr)
  : M World unit :=
  DVLOG "Client registration failed" >>
  DCHECK cfg (let* h := self in ret (bool_decide (client = client_ h))) >>
  RequestCompleted.

(** ** TokenServiceHelper *)

Definition TokenServiceHelper_FetchAccessToken (cfg : Config)
    (token_service : OAuth2TokenService) (username : string)
    (callback : StringCallback) : M World unit :=
  let* me := follow token_service_helper_ in
  DCHECK cfg (ret (negb (non_null (tsh_token_request_ me)))) >>
  (* Either the caller must supply a username, or the user must be signed in
     already. *)
  DCHECK cfg (ret (negb (string_empty username)
                   || RefreshTokenIsAvailable token_service)) >>
  assign (set_token_service_helper_
            (Some {| tsh_callback_ := Some callback;
                     tsh_token_request_ := tsh_token_request_ me |})) >>
  let scopes : gset string := ∅ in
  let scopes := scopes ∪ {[kDeviceManagementServiceOAuth cfg]} in
  let scopes := scopes ∪ {[kServiceScopeGetUserInfo]} in
  let* request :=
    (if OS_ANDROID cfg
     then StartRequestForUsername token_service username scopes
     else StartRequest token_service scopes) in
  assign (set_token_service_helper_
            (Some {| tsh_callback_ := Some callback;
                     tsh_token_request_ := Some request |})).

(** [callback_.Run(arg)] on a [StringCallback]: the bound method runs. *)
Definition StringCallback_Run (cfg : Config)
    (callback : option StringCallback) (arg : string) : M World unit :=
  match callback with
  | None => crash NullDereference
  | Some Bind_OnTokenFetched =>
      emit (Run_StringCallback Bind_OnTokenFetched arg) >>
      OnTokenFetched cfg arg
  | Some (Bind_other id) => emit (Run_StringCallback (Bind_other id) arg)
  end.

Definition TokenServiceHelper_OnGetTokenSuccess (cfg : Config)
    (request : option Request) (access_token : string)
    (expiration_time : Time) : M World unit :=
  let* me := follow token_service_helper_ in
  DCHECK cfg (ret (bool_decide (tsh_token_request_ me = request))) >>
  StringCallback_Run cfg (tsh_callback_ me) access_token.

Definition TokenServiceHelper_OnGetTokenFailure (cfg : Config)
    (request : option Request) (error : GoogleServiceAuthError)
  : M World unit :=
  let* me := follow token_service_helper_ in
  DCHECK cfg (ret (bool_decide (tsh_token_request_ me = request))) >>
  StringCallback_Run cfg (tsh_callback_ me) "".

(** ** LoginTokenHelper (not compiled on Android) *)

Definition LoginTokenHelper_FetchAccessToken (cfg : Config)
    (login_refresh_token : string) (context : option ContextPtr)
    (callback : StringCallback) : M World unit :=
  let* me := follow login_token_helper_ in
  DCHECK cfg (ret (negb (non_null (lth_oauth2_access_token_fetcher_ me)))) >>
  (* Start fetching an OAuth2 access token for the device management and
     userinfo services. *)
  assign (set_login_token_helper_
            (Some {| lth_callback_ := Some callback;
                     lth_oauth2_access_token_fetcher_ :=
                       lth_oauth2_access_token_fetcher_ me |})) >>
  assign (set_login_token_helper_
            (Some {| lth_callback_ := Some callback;
                     lth_oauth2_access_token_fetcher_ :=
                       Some new_OAuth2AccessTokenFetcher |})) >>
  let scopes : list string := [] in
  let scopes := (scopes ++ [kDeviceManagementServiceOAuth cfg])%list in
  let scopes := (scopes ++ [kServiceScopeGetUserInfo])%list in
  emit (AccessTokenFetcher_Start_ (oauth2_chrome_client_id cfg)
          (oauth2_chrome_client_secret cfg) login_refresh_token scopes).

Definition LoginTokenHelper_OnGetTokenSuccess (cfg : Config)
    (access_token : string) (expiration_time : Time) : M World unit :=
  let* me := follow login_token_helper_ in
  StringCallback_Run cfg (lth_callback_ me) access_token.

Definition LoginTokenHelper_OnGetTokenFailure (cfg : Config)
    (error : GoogleServiceAuthError) : M World unit :=
  let* me := follow login_token_helper_ in
  StringCallback_Run cfg (lth_callback_ me) "".

(** ** CloudPolicyClientRegistrationHelper: construction and start *)

Definition construct (cfg : Config) (context : option ContextPtr)
    (client : option ClientPtr) (should_force_load_policy : bool)
    (registration_type : RegistrationType) : M World unit :=
  (fun w => Ok [] tt (set_helper (Some
     {| context_ := context; client_ := client;
        should_force_load_policy_ := should_force_load_policy;
        registration_type_ := registration_type;
        callback_ := None;
        token_service_helper_ := None; login_token_helper_ := None;
        user_info_fetcher_ := None; oauth_access_token_ := "" |}) w)) >>
  DCHECK cfg (let* h := self in ret (non_null (context_ h))) >>
  DCHECK cfg (let* h := self in ret (non_null (client_ h))).

Definition StartRegistration (cfg : Config)
    (token_service : OAuth2TokenService) (username : string)
    (callback : Closure) : M World unit :=
  DVLOG "Starting registration process with username" >>
  let* h := self in
  DCHECK cfg (let* r := is_registered_ (client_ h) in ret (negb r)) >>
  assign (set_callback_ (Some callback)) >>
  let* this := this_ptr in
  AddObserver (client_ h) this >>
  emit (New a_TokenServiceHelper) >>
  reset a_TokenServiceHelper token_service_helper_ set_token_service_helper_
        (Some {| tsh_callback_ := None; tsh_token_request_ := None |}) >>
  TokenServiceHelper_FetchAccessToken cfg token_service username
                                      Bind_OnTokenFetched.

(** Not compiled on Android. *)
Definition StartRegistrationWithLoginToken (cfg : Config)
    (login_refresh_token : string) (callback : Closure) : M World unit :=
  DVLOG "Starting registration process with login token" >>
  let* h := self in
  DCHECK cfg (let* r := is_registered_ (client_ h) in ret (negb r)) >>
  assign (set_callback_ (Some callback)) >>
  let* this := this_ptr in
  AddObserver (client_ h) this >>
  emit (New a_LoginTokenHelper) >>
  reset a_LoginTokenHelper login_token_helper_ set_login_token_helper_
        (Some {| lth_callback_ := None;
                 lth_oauth2_access_token_fetcher_ := None |}) >>
  LoginTokenHelper_FetchAccessToken cfg login_refresh_token (context_ h)
                                    Bind_OnTokenFetched.

(** ** The environment *)

Inductive Notification := RegistrationStateChanged | ClientError | PolicyFetched.

(** What can happen to a helper once an attempt has started. *)
Inductive Event :=
| TokenSuccess (access_token : string) (expiration_time : Time)
| TokenFailure (error : GoogleServiceAuthError)
| GetUserInfoSuccess (data : gmap string string)
| GetUserInfoFailure (error : GoogleServiceAuthError)
| Notify (n : Notification)
| ClientRegistered (registered : bool)
| OwnerDeletesHelper.

(** The outstanding token request of the helper, if any: the consumer the
    token provider will answer. *)
Inductive TokenConsumer :=
| consumer_TokenServiceHelper (request : option Request)
| consumer_LoginTokenHelper.

Definition token_consumer (w : World) : option TokenConsumer :=
  match helper w with
  | None => None
  | Some h =>
      match token_service_helper_ h, login_token_helper_ h with
      | Some tsh, _ =>
          if non_null (tsh_token_request_ tsh)
          then Some (consumer_TokenServiceHelper (tsh_token_request_ tsh))
          else None
      | None, Some lth =>
          if non_null (lth_oauth2_access_token_fetcher_ lth)
          then Some consumer_LoginTokenHelper
          else None
      | None, None => None
      end
  end.

Definition user_info_delegate (w : World) : bool :=
  match helper w with
  | None => false
  | Some h => non_null (user_info_fetcher_ h)
  end.

Definition observing (w : World) : bool :=
  match client w with
  | None => false
  | Some c => bool_decide (this w ∈ observers_ c)
  end.

(** Modelled from the spec: which callbacks the collaborators deliver (their
    sources are not part of the sources). A token answer goes to the
    consumer that holds the request, a user-info answer to the delegate of a
    live fetcher, a client notification to the members of the observer set;
    an answer for a helper that has been released is discarded. The client's
    registration state changes under the feet of the helper (the client is
    shared), and the owner may delete the helper at any time. *)
Definition deliver (cfg : Config) (e : Event) : M World unit :=
  fun w =>
  match e with
  | TokenSuccess access_token expiration_time =>
      match token_consumer w with
      | Some (consumer_TokenServiceHelper request) =>
          TokenServiceHelper_OnGetTokenSuccess cfg request access_token
                                               expiration_time w
      | Some consumer_LoginTokenHelper =>
          LoginTokenHelper_OnGetTokenSuccess cfg access_token
                                             expiration_time w
      | None => Ok [] tt w
      end
  | TokenFailure error =>
      match token_consumer w with
      | Some (consumer_TokenServiceHelper request) =>
          TokenServiceHelper_OnGetTokenFailure cfg request error w
      | Some consumer_LoginTokenHelper =>
          LoginTokenHelper_OnGetTokenFailure cfg error w
      | None => Ok [] tt w
      end
  | GetUserInfoSuccess data =>
      if user_info_delegate w then OnGetUserInfoSuccess data w
      else Ok [] tt w
  | GetUserInfoFailure error =>
      if user_info_delegate w then OnGetUserInfoFailure error w
      else Ok [] tt w
  | Notify n =>
      if observing w then
        (let* _ := self in
         match n with
         | RegistrationStateChanged =>
             OnRegistrationStateChanged cfg (Some the_client)
         | ClientError => OnClientError cfg (Some the_client)
         | PolicyFetched => OnPolicyFetched (Some the_client)
         end) w
      else Ok [] tt w
  | ClientRegistered registered =>
      match client w with
      | Some c =>
          Ok [] tt (set_client (Some {| observers_ := observers_ c;
                                        is_registered := registered |}) w)
      | None => Ok [] tt w
      end
  | OwnerDeletesHelper =>
      if non_null (helper w) then delete_this w else Ok [] tt w
  end.

Fixpoint deliver_all (cfg : Config) (events : list Event) : M World unit :=
  match events with
  | [] => ret tt
  | e :: rest => deliver cfg e >> deliver_all cfg rest
  end.

(** The two entry points. *)
Inductive StartCall :=
| with_username (token_service : OAuth2TokenService) (username : string)
| with_login_token (login_refresh_token : string).

Definition start (cfg : Config) (how : StartCall) (callback : Closure)
  : M World unit :=
  match how with
  | with_username token_service username =>
      StartRegistration cfg token_service username callback
  | with_login_token login_refresh_token =>
      StartRegistrationWithLoginToken cfg login_refresh_token callback
  end.

(** [StartRegistrationWithLoginToken] exists on non-Android builds only. *)
Definition compiled (cfg : Config) (how : StartCall) : bool :=
  match how with
  | with_username _ _ => true
  | with_login_token _ => negb (OS_ANDROID cfg)
  end.

(** One registration attempt: who owns what before the helper is built. *)
Record Setup := {
  address : ObserverId;
  policy_client : CloudPolicyClient;
  should_force_load_policy : bool;
  registration_type : RegistrationType;
  how : StartCall;
  on_done : Closure;
}.

Definition before (s : Setup) : World :=
  {| this := address s; helper := None; client := Some (policy_client s) |}.

(** Build the helper and start the attempt. *)
Definition begin (cfg : Config) (s : Setup) : M World unit :=
  construct cfg (Some the_context) (Some the_client)
            (should_force_load_policy s) (registration_type s) >>
  start cfg (how s) (on_done s).

(** One attempt from beginning to end: start it, then let the events
    happen. *)
Definition attempt (cfg : Config) (s : Setup) (events : list Event)
  : Outcome World unit :=
  (begin cfg s >> deliver_all cfg events) (before s).

(** ** Sample attempts *)

(** The heap an attempt ends in (the heap it started from if it crashed). *)
Definition world_after (cfg : Config) (s : Setup) (events : list Event)
  : World :=
  match attempt cfg s events with
  | Ok _ _ w => w
  | Crash _ _ => before s
  end.

Definition desktop_debug : Config :=
  {| OS_ANDROID := false; DCHECK_IS_ON := true;
     kDeviceManagementServiceOAuth :=
       "https://www.googleapis.com/auth/chromeosdevicemanagement";
     oauth2_chrome_client_id := "client-id";
     oauth2_chrome_client_secret := "client-secret" |}.

Definition signed_in : OAuth2TokenService :=
  {| RefreshTokenIsAvailable := true; next_request := 1 |}.

(** Scenario 1 of the spec: a username hint, a client nobody has registered
    yet, one other observer, a callback that leaves the helper alone. *)
Definition alice : Setup :=
  {| address := 7;
     policy_client := {| observers_ := {[3]}; is_registered := false |};
     should_force_load_policy := false;
     registration_type := 1;
     how := with_username signed_in "alice@co.com";
     on_done := [] |}.

Definition alice_forced : Setup :=
  {| address := 7;
     policy_client := {| observers_ := {[3]}; is_registered := false |};
     should_force_load_policy := true;
     registration_type := 1;
     how := with_username signed_in "alice@co.com";
     on_done := [] |}.

(** As [alice], with a completion callback that deletes the helper. *)
Definition alice_deleting : Setup :=
  {| address := address alice;
     policy_client := policy_client alice;
     should_force_load_policy := should_force_load_policy alice;
     registration_type := registration_type alice;
     how := how alice;
     on_done := [delete_helper] |}.

Definition hosted : gmap string string := {[ "hd" := "co.com" ]}.

(** A pending helper with the given completion callback and helper slots,
    next to the shared client. *)
Definition pending_helper (callback : Closure)
    (tsh : option TokenServiceHelper) (lth : option LoginTokenHelper)
  : CloudPolicyClientRegistrationHelper :=
  {| context_ := Some the_context; client_ := Some the_client;
     should_force_load_policy_ := false; registration_type_ := 1;
     callback_ := Some callback;
     token_service_helper_ := tsh; login_token_helper_ := lth;
     user_info_fetcher_ := None; oauth_access_token_ := "" |}.

Definition shared_client : CloudPolicyClient :=
  {| observers_ := {[3; 7]}; is_registered := false |}.

(** The helper has just built its [TokenServiceHelper] (its
    [LoginTokenHelper]), as in the middle of [StartRegistration]
    ([StartRegistrationWithLoginToken]). *)
Definition alice_before_fetch : World :=
  {| this := 7;
     helper := Some (pending_helper []
                 (Some {| tsh_callback_ := None; tsh_token_request_ := None |})
                 None);
     client := Some shared_client |}.

Definition alice_before_login_fetch : World :=
  {| this := 7;
     helper := Some (pending_helper [] None
                 (Some {| lth_callback_ := None;
                          lth_oauth2_access_token_fetcher_ := None |}));
     client := Some shared_client |}.

Definition heap_of (o : Outcome World unit) : World :=
  match o with Ok _ _ w => w | Crash _ _ => alice_before_fetch end.

Close Scope string_scope.

(** ** Reading traces *)

Fixpoint count (p : Effect -> bool) (t : list Effect) : nat :=
  match t with
  | [] => 0
  | e :: t' => (if p e then 1 else 0) + count p t'
  end.

Definition is_Run_Closure (e : Effect) : bool :=
  match e with Run_Closure => true | _ => false end.

Definition is_Register (e : Effect) : bool :=
  match e with Register_ _ _ _ _ _ => true | _ => false end.

Definition is_New_UserInfoFetcher (e : Effect) : bool :=
  match e with New a_UserInfoFetcher => true | _ => false end.

Definition is_Run_StringCallback (e : Effect) : bool :=
  match e with Run_StringCallback _ _ => true | _ => false end.

Definition is_RemoveObserver (e : Effect) : bool :=
  match e with RemoveObserver_ _ => true | _ => false end.

(** How many helpers are alive after a trace, given how many were before. *)
Fixpoint outstanding (n : nat) (t : list Effect) : nat :=
  match t with
  | [] => n
  | New _ :: t' => outstanding (S n) t'
  | Delete _ :: t' => outstanding (pred n) t'
  | _ :: t' => outstanding n t'
  end.

(** No two helpers alive at any point of a trace that starts with [n] alive. *)
Fixpoint never_two (n : nat) (t : list Effect) : bool :=
  Nat.leb n 1 &&
  match t with
  | [] => true
  | New _ :: t' => never_two (S n) t'
  | Delete _ :: t' => never_two (pred n) t'
  | _ :: t' => never_two n t'
  end.

(** ** Phases of an attempt, read off the heap *)

Definition b2n (b : bool) : nat := if b then 1 else 0.

Definition live_helpers (w : World) : nat :=
  match helper w with
  | None => 0
  | Some h =>
      b2n (non_null (token_service_helper_ h))
      + b2n (non_null (login_token_helper_ h))
      + b2n (non_null (user_info_fetcher_ h))
  end.

(** The attempt has started and has not completed: the helper still holds
    its client pointer. *)
Definition pending (w : World) : bool :=
  match helper w with
  | Some h => non_null (client_ h)
  | None => false
  end.

Definition is_bound (cb : option StringCallback) : bool :=
  match cb with Some Bind_OnTokenFetched => true | _ => false end.

Definition helpers_ok (cfg : Config) (h : CloudPolicyClientRegistrationHelper)
  : bool :=
  match token_service_helper_ h, login_token_helper_ h, user_info_fetcher_ h with
  | None, None, _ => true
  | Some x, None, None =>
      is_bound (tsh_callback_ x) && non_null (tsh_token_request_ x)
  | None, Some x, None =>
      negb (OS_ANDROID cfg) && is_bound (lth_callback_ x)
      && non_null (lth_oauth2_access_token_fetcher_ x)
  | _, _, _ => false
  end.

(** What holds of the heap from [Start...] on. *)
Definition started (cfg : Config) (w : World) : bool :=
  match helper w with
  | None => negb (observing w)
  | Some h =>
      non_null (callback_ h) && helpers_ok cfg h
      && (if non_null (client_ h) then observing w else negb (observing w))
  end.

(** What one step (a handler, a callback, a whole run) does to a started
    attempt: helpers are created one at a time, the completion callback runs
    at most once and only when the attempt leaves the pending phase, and a
    deleted helper does nothing. *)
Definition summary (cfg : Config) (w : World) (o : Outcome World unit) : Prop :=
  let t := effects o in
  never_two (live_helpers w) t = true ∧
  count is_Run_Closure t ≤ b2n (pending w) ∧
  (helper w = None → t = []) ∧
  ∀ w', state_of o = Some w' →
    started cfg w' = true ∧
    outstanding (live_helpers w) t = live_helpers w' ∧
    this w' = this w ∧
    (helper w = None → helper w' = None) ∧
    (is_Some (helper w') →
     count is_Run_Closure t + b2n (pending w') = b2n (pending w)).

(** ** Shapes of a started heap *)

(** The helper slots of a started attempt: nothing outstanding, or exactly
    one of the three helpers. *)
Inductive Slots (cfg : Config) :
  option TokenServiceHelper → option LoginTokenHelper →
  option UserInfoFetcher → Prop :=
| slots_none : Slots cfg None None None
| slots_token_service r :
    Slots cfg (Some {| tsh_callback_ := Some Bind_OnTokenFetched;
                       tsh_token_request_ := Some r |}) None None
| slots_login_token f :
    OS_ANDROID cfg = false →
    Slots cfg None (Some {| lth_callback_ := Some Bind_OnTokenFetched;
                            lth_oauth2_access_token_fetcher_ := Some f |})
          None
| slots_user_info f : Slots cfg None None (Some f).

(** How the helper and the client are tied: the helper holds the pointer
    exactly while it is in the observer set. *)
Inductive Link (x : ObserverId) :
  option ClientPtr → option CloudPolicyClient → Prop :=
| link_pending X r :
    bool_decide (x ∈ X) = true →
    Link x (Some the_client) (Some {| observers_ := X; is_registered := r |})
| link_completed X r :
    bool_decide (x ∈ X) = false →
    Link x None (Some {| observers_ := X; is_registered := r |})
| link_freed : Link x None None.

(** The heaps that satisfy [started], spelled out. *)
Inductive Shape (cfg : Config) : World → Prop :=
| shape_deleted x X r :
    bool_decide (x ∈ X) = false →
    Shape cfg {| this := x; helper := None;
                 client := Some {| observers_ := X; is_registered := r |} |}
| shape_deleted_freed x :
    Shape cfg {| this := x; helper := None; client := None |}
| shape_alive x ctx p force type cb tsh lth uif tok c :
    Slots cfg tsh lth uif → Link x p c →
    Shape cfg {| this := x;
                 helper := Some {| context_ := ctx; client_ := p;
                    should_force_load_policy_ := force;
                    registration_type_ := type; callback_ := Some cb;
                    token_service_helper_ := tsh; login_token_helper_ := lth;
                    user_info_fetcher_ := uif; oauth_access_token_ := tok |};
                 client := c |}.


(** ** What the proofs track *)

(** What completion and teardown leave alone: they register nothing, create
    no fetcher, run no string callback, and either delete the helper or
    leave every member but [client_] as it was. *)
Definition frame (w : World) (o : Outcome World unit) : Prop :=
  count is_Register (effects o) = 0 ∧
  count is_New_UserInfoFetcher (effects o) = 0 ∧
  count is_Run_StringCallback (effects o) = 0 ∧
  ∀ w', state_of o = Some w' →
    this w' = this w ∧
    (helper w' = None ∨
     ∃ h, helper w = Some h ∧
          (helper w' = Some h ∨ helper w' = Some (set_client_ None h))).

Definition unforced (w : World) : bool :=
  match helper w with
  | Some h => negb (should_force_load_policy_ h)
  | None => true
  end.

Definition gate_closed (e : Event) : bool :=
  match e with
  | GetUserInfoSuccess data => negb (HasKey data kGetHostedDomainKey)
  | _ => true
  end.

Definition registers_nothing (o : Outcome World unit) : Prop :=
  count is_Register (effects o) = 0 ∧
  ∀ w', state_of o = Some w' → unforced w' = true.

Definition is_token (e : Event) : bool :=
  match e with TokenSuccess _ _ | TokenFailure _ => true | _ => false end.

Definition empty_token (e : Event) : bool :=
  match e with
  | TokenSuccess access_token _ => string_empty access_token
  | TokenFailure _ => true
  | _ => false
  end.

(** A token helper is outstanding (or the helper is gone). *)
Definition awaiting_token (w : World) : bool :=
  match helper w with
  | Some h => non_null (token_service_helper_ h)
              || non_null (login_token_helper_ h)
  | None => true
  end.

Definition skips_lookup (post : World → bool) (o : Outcome World unit) : Prop :=
  count is_New_UserInfoFetcher (effects o) = 0 ∧
  count is_Register (effects o) = 0 ∧
  ∀ w', state_of o = Some w' → post w' = true.

Definition no_helpers (w : World) : bool := Nat.eqb (live_helpers w) 0.

Definition silent (p : Effect → bool) (post : World → bool)
    (o : Outcome World unit) : Prop :=
  count p (effects o) = 0 ∧ ∀ w', state_of o = Some w' → post w' = true.

(** Whether the client is registered, as [client_->is_registered()] would
    answer. *)
Definition client_registered (w : World) : bool :=
  match client w with
  | Some c => is_registered c
  | None => false
  end.

(** The events that complete a pending attempt in heap [w]: a token answer
    that is a failure or the empty string, a failed user-info lookup, a
    user-info answer that fails the domain gate or finds the client
    registered already, [OnClientError], and [OnRegistrationStateChanged]
    (which, with assertions compiled in, needs a registered client). A token
    or user-info answer counts only if the request it answers is
    outstanding. *)
Definition completing (cfg : Config) (w : World) (e : Event) : bool :=
  match e with
  | TokenSuccess access_token _ =>
      non_null (token_consumer w) && string_empty access_token
  | TokenFailure _ => non_null (token_consumer w)
  | GetUserInfoFailure _ => user_info_delegate w
  | GetUserInfoSuccess data =>
      user_info_delegate w
      && (negb (HasKey data kGetHostedDomainKey) && unforced w
          || client_registered w)
  | Notify ClientError => true
  | Notify RegistrationStateChanged =>
      negb (DCHECK_IS_ON cfg) || client_registered w
  | Notify PolicyFetched | ClientRegistered _ | OwnerDeletesHelper => false
  end.

(** ** What the entry points ask for *)

(** The scope set of every token request: device management and userinfo. *)
Definition token_scopes (cfg : Config) : gset string :=
  {[ kDeviceManagementServiceOAuth cfg; kServiceScopeGetUserInfo ]}.

(** The assertions on the way from [Start...] to the token request: the
    client is not registered yet, and a username-based fetch has a username
    or a refresh token to go by. *)
Definition start_allowed (cfg : Config) (s : Setup) : bool :=
  negb (DCHECK_IS_ON cfg)
  || negb (is_registered (policy_client s))
     && match how s with
        | with_username token_service username =>
            negb (string_empty username)
            || RefreshTokenIsAvailable token_service
        | with_login_token _ => true
        end.

(** The helper built and the request made by each entry point. *)
Definition token_request (cfg : Config) (how : StartCall) : list Effect :=
  match how with
  | with_username token_service username =>
      [New a_TokenServiceHelper;
       if OS_ANDROID cfg
       then StartRequestForUsername_ username (token_scopes cfg)
       else StartRequest_ (token_scopes cfg)]
  | with_login_token login_refresh_token =>
      [New a_LoginTokenHelper;
       AccessTokenFetcher_Start_ (oauth2_chrome_client_id cfg)
         (oauth2_chrome_client_secret cfg) login_refresh_token
         [kDeviceManagementServiceOAuth cfg; kServiceScopeGetUserInfo]]
  end.

(** ** The shared client *)

(** The registration state of the client after the changes reported by the
    events, the helper doing nothing to it. *)
Fixpoint registered_after (r : bool) (es : list Event) : bool :=
  match es with
  | [] => r
  | ClientRegistered r' :: es' => registered_after r' es'
  | _ :: es' => registered_after r es'
  end.

(** From [w] to [w'] the client, if it still exists, has changed only as the
    events say, and only the helper itself may have entered or left the
    observer set. *)
Definition client_kept (es : list Event) (w w' : World) : Prop :=
  this w' = this w ∧
  ∀ c', client w' = Some c' →
    ∃ c, client w = Some c ∧
         is_registered c' = registered_after (is_registered c) es ∧
         ∀ o, o ≠ this w → (o ∈ observers_ c' ↔ o ∈ observers_ c).

Definition keeps_client (es : list Event) (w : World)
    (o : Outcome World unit) : Prop :=
  ∀ w', state_of o = Some w' → client_kept es w w'.

(** ** Where the token goes *)

(** Effects of completion and teardown: deleting helpers, leaving the
    observer set, running the completion callback. *)
Definition is_teardown (e : Effect) : bool :=
  match e with
  | Delete _ | RemoveObserver_ _ | Run_Closure => true
  | _ => false
  end.

Definition teardown_only {A} (o : Outcome World A) : Prop :=
  Forall (λ e, is_teardown e = true) (effects o).

(** What one event may make the helper say to the user-info service and to
    the client: a lookup only for the non-empty token the event brings, a
    registration only with the helper's own type and cached token, and at a
    moment the lookup is outstanding. *)
Definition flows_ok (e : Event) (w : World) (eff : Effect) : Prop :=
  match eff with
  | Register_ ty tok cid auto req =>
      ∃ h, helper w = Some h ∧
           non_null (user_info_fetcher_ h) = true ∧
           ty = registration_type_ h ∧ tok = oauth_access_token_ h ∧
           cid = ""%string ∧ auto = false ∧ req = ""%string
  | UserInfoFetcher_Start_ tok =>
      string_empty tok = false ∧ ∃ exp, e = TokenSuccess tok exp
  | _ => True
  end.

(** The registration type never changes, and while a lookup is outstanding
    the cached token is the one the lookup was started for. *)
Definition carries (e : Event) (w w' : World) : Prop :=
  ∀ h', helper w' = Some h' →
    ∃ h, helper w = Some h ∧
         registration_type_ h' = registration_type_ h ∧
         (non_null (user_info_fetcher_ h') = true →
          (non_null (user_info_fetcher_ h) = true ∧
           oauth_access_token_ h' = oauth_access_token_ h)
          ∨ (string_empty (oauth_access_token_ h') = false ∧
             ∃ exp, e = TokenSuccess (oauth_access_token_ h') exp)).

Definition token_step (e : Event) (w : World) (o : Outcome World unit)
  : Prop :=
  Forall (flows_ok e w) (effects o) ∧
  ∀ w', state_of o = Some w' → carries e w w'.

(** What an attempt may say to the user-info service and to the client, given
    the events it has seen. *)
Definition said_ok (s : Setup) (es : list Event) (eff : Effect) : Prop :=
  match eff with
  | Register_ ty tok cid auto req =>
      ty = registration_type s ∧ cid = ""%string ∧ auto = false ∧
      req = ""%string ∧
      string_empty tok = false ∧ ∃ exp, In (TokenSuccess tok exp) es
  | UserInfoFetcher_Start_ tok =>
      string_empty tok = false ∧ ∃ exp, In (TokenSuccess tok exp) es
  | _ => True
  end.

(** The helper holds the configured registration type, and a token the
    events brought while a lookup is outstanding. *)
Definition holds_token (s : Setup) (seen : list Event) (w : World) : Prop :=
  ∀ h, helper w = Some h →
    registration_type_ h = registration_type s ∧
    (non_null (user_info_fetcher_ h) = true →
     string_empty (oauth_access_token_ h) = false ∧
     ∃ exp, In (TokenSuccess (oauth_access_token_ h) exp) seen).

(** ** One lookup, one registration *)

(** Whether a token request of the helper is outstanding. *)
Definition token_pending (w : World) : nat :=
  match helper w with
  | Some h => b2n (non_null (token_service_helper_ h)
                   || non_null (login_token_helper_ h))
  | None => 0
  end.

(** A step spends what is outstanding: a lookup is started only by using up
    the token request, a registration only by using up a helper. *)
Definition spends (w : World) (o : Outcome World unit) : Prop :=
  count is_New_UserInfoFetcher (effects o) ≤ token_pending w ∧
  count is_Register (effects o) ≤ live_helpers w ∧
  ∀ w', state_of o = Some w' →
    count is_New_UserInfoFetcher (effects o) + token_pending w'
    ≤ token_pending w ∧
    count is_Register (effects o) + live_helpers w' ≤ live_helpers w.

(** ** Calls on the client *)

(** A call on the [CloudPolicyClient]. *)
Definition is_client_call (e : Effect) : bool :=
  match e with
  | AddObserver_ _ | RemoveObserver_ _ | Register_ _ _ _ _ _ => true
  | _ => false
  end.

(** No call on the client follows the completion callback; [ran] says that
    the callback has run already. *)
Fixpoint quiet_after_callback (ran : bool) (t : list Effect) : bool :=
  match t with
  | [] => true
  | e :: t' =>
      negb (ran && is_client_call e)
      && quiet_after_callback (ran || is_Run_Closure e) t'
  end.

(** What a step may ask of the client, given where the attempt stands. *)
Definition hands_off (w : World) (o : Outcome World unit) : Prop :=
  quiet_after_callback (negb (pending w)) (effects o) = true.

(** * Proofs *)

(** ** Traces and outcomes *)

Lemma effects_after {S A} t (o : Outcome S A) : effects (after t o) = t ++ effects o.
Proof. by destruct o. Qed.

Lemma state_of_after {S A} t (o : Outcome S A) : state_of (after t o) = state_of o.
Proof. by destruct o. Qed.

Lemma count_app p t1 t2 : count p (t1 ++ t2) = count p t1 + count p t2.
Proof. induction t1 as [|e t1 IH]; simpl; [done|]. rewrite IH. lia. Qed.

Lemma outstanding_app t1 : forall n t2,
  outstanding n (t1 ++ t2) = outstanding (outstanding n t1) t2.
Proof. induction t1 as [|e t1 IH]; intros n t2; [done|]. destruct e; simpl; auto. Qed.

Lemma never_two_head n t : never_two n t = Nat.leb n 1 && never_two n t.
Proof. destruct t as [|e t]; simpl; [|destruct e]; by destruct (Nat.leb n 1). Qed.

Lemma never_two_app t1 : forall n t2,
  never_two n (t1 ++ t2) = never_two n t1 && never_two (outstanding n t1) t2.
Proof.
  induction t1 as [|e t1 IH]; intros n t2.
  - simpl. rewrite andb_true_r. apply never_two_head.
  - destruct e; simpl; rewrite IH; by rewrite andb_assoc.
Qed.


Lemma bool_decide_detached (x : ObserverId) (X : gset ObserverId) :
  bool_decide (x ∈ X ∖ {[x]}) = false.
Proof.
  apply bool_decide_eq_false. rewrite elem_of_difference, elem_of_singleton.
  tauto.
Qed.

Lemma bool_decide_attached (x : ObserverId) (X : gset ObserverId) :
  bool_decide (x ∈ X ∪ {[x]}) = true.
Proof.
  apply bool_decide_eq_true. rewrite elem_of_union, elem_of_singleton. tauto.
Qed.

Lemma bool_decide_refl {A} `{EqDecision A} (x : A) : bool_decide (x = x) = true.
Proof. by apply bool_decide_eq_true. Qed.

Lemma started_Shape cfg w : started cfg w = true → Shape cfg w.
Proof.
  destruct w as [x [[ctx p force type cb tsh lth uif tok]|] c];
    unfold started, observing, helpers_ok; simpl.
  - intros H. repeat (apply andb_prop in H; destruct H as [H ?]).
    destruct cb as [cb|]; [|done]. constructor.
    + destruct tsh as [[[[]|] [r|]]|], lth as [[[[]|] [f|]]|], uif as [f'|];
        simpl in *; try done; try constructor;
        by destruct (OS_ANDROID cfg).
    + destruct p as [[]|], c as [[X r]|]; simpl in *; try done;
        constructor; by destruct (bool_decide _).
  - destruct c as [[X r]|]; simpl; intros H; constructor.
    by destruct (bool_decide _).
Qed.

Lemma Shape_started cfg w : Shape cfg w → started cfg w = true.
Proof.
  intros [x X r H|x|x ctx p force type cb tsh lth uif tok c Hs Hl];
    unfold started, observing, helpers_ok; simpl.
  - by rewrite H.
  - done.
  - destruct Hs as [|r|f Ha|f]; destruct Hl as [X r' H|X r' H|]; simpl;
      rewrite ?H, ?Ha; done.
Qed.

Ltac shapes H :=
  apply started_Shape in H;
  let Hs := fresh "Hslots" in let Hl := fresh "Hlink" in
  destruct H as [? ? ? ?|?|? ? ? ? ? ? ? ? ? ? ? Hs Hl];
  [| |destruct Hs as [|?|? ?|?]; destruct Hl as [? ? ?|? ? ?|]].

Ltac unfold_prims :=
  cbv [bind ret emit crash after
       self assign follow deref store_client this_ptr reset
       AddObserver RemoveObserver is_registered_ Register
       StartRequest StartRequestForUsername
       free_the_client
       token_consumer user_info_delegate observing
       DCHECK NOTREACHED DVLOG non_null string_empty
       set_client_ set_callback_ set_token_service_helper_
       set_login_token_helper_ set_user_info_fetcher_ set_oauth_access_token_
       set_helper set_client
       this helper client
       context_ client_ should_force_load_policy_ registration_type_ callback_
       token_service_helper_ login_token_helper_ user_info_fetcher_
       oauth_access_token_ tsh_callback_ tsh_token_request_ lth_callback_
       lth_oauth2_access_token_fetcher_ observers_ is_registered
       is_bound helpers_ok started
       andb negb orb app];
  rewrite ?bool_decide_detached, ?bool_decide_attached, ?bool_decide_refl.

(** Rewrite with what is known of the flags, then split on the innermost
    undetermined test. *)
Ltac known :=
  repeat match goal with
         | H : ?a = _ |- context [?a] => rewrite H
         end.

Ltac split_atom :=
  match goal with
  | |- context [match ?x with _ => _ end] =>
      lazymatch x with
      | context [match _ with _ => _ end] => fail
      | _ => destruct x eqn:?
      end
  end.

Ltac exec := repeat (unfold_prims; known; try split_atom).

Ltac observe :=
  cbn [effects state_of count outstanding never_two pending live_helpers b2n
       non_null this helper client client_ token_service_helper_
       login_token_helper_ user_info_fetcher_ should_force_load_policy_
       set_client_ is_Run_Closure is_Register is_Run_StringCallback
       is_New_UserInfoFetcher andb negb orb Nat.eqb Nat.leb Nat.add Nat.pred]
    in *.

Ltac finish :=
  unfold summary; cbn [effects state_of]; repeat split; intros; simplify_eq;
  observe;
  repeat match goal with
         | H : ?P → _, H' : ?P |- _ => specialize (H H')
         end;
  try done; try lia;
  try match goal with H : is_Some _ |- _ => cbn in H; by destruct H end;
  try (exec; done).

Lemma delete_this_summary cfg w :
  started cfg w = true → summary cfg w (delete_this w) ∧
  ∀ w', state_of (delete_this w) = Some w' → helper w' = None.
Proof.
  intros Hs. unfold delete_this, destructor. shapes Hs; exec; split; finish.
Qed.

Lemma perform_summary cfg a w :
  started cfg w = true → pending w = false → summary cfg w (perform a w).
Proof.
  intros Hs Hp. destruct a.
  - by apply delete_this_summary.
  - unfold perform. shapes Hs; try done; exec; finish.
Qed.

Lemma summary_ret cfg w : started cfg w = true → summary cfg w (Ok [] tt w).
Proof. intros Hs. shapes Hs; finish. Qed.

Lemma pending_after cfg w o w' :
  summary cfg w o → state_of o = Some w' → pending w = false → pending w' = false.
Proof.
  intros (_ & _ & _ & H) Hw Hp. destruct (H _ Hw) as (_ & _ & _ & Hn & Hc).
  destruct (helper w') as [h'|] eqn:E.
  - rewrite Hp in Hc. destruct (pending w'); [|done].
    specialize (Hc (ltac:(eauto))). simpl in Hc. lia.
  - unfold pending. by rewrite E.
Qed.

Lemma summary_bind cfg (m : M World unit) (k : M World unit) w :
  summary cfg w (m w) →
  (∀ w1, state_of (m w) = Some w1 → summary cfg w1 (k w1)) →
  summary cfg w (bind m (fun _ => k) w).
Proof.
  intros (N1 & C1 & D1 & F1) Hk. unfold bind.
  destruct (m w) as [t1 [] w1|t1 f] eqn:Em; cbn [effects state_of] in *.
  2: { repeat split; try done. }
  destruct (F1 _ eq_refl) as (S1 & O1 & T1 & Dd1 & P1).
  destruct (Hk _ eq_refl) as (N2 & C2 & D2 & F2).
  unfold summary. rewrite effects_after, state_of_after.
  rewrite never_two_app, count_app, outstanding_app, N1, O1, N2.
  repeat split.
  - destruct (helper w1) as [h1|] eqn:E1.
    + specialize (P1 (ltac:(eauto))). lia.
    + rewrite (D2 eq_refl). simpl. lia.
  - intros E. rewrite (D1 E), (D2 (Dd1 E)). done.
  - by destruct (F2 _ H) as (? & _).
  - by destruct (F2 _ H) as (_ & ? & _).
  - destruct (F2 _ H) as (_ & _ & ? & _). congruence.
  - destruct (F2 _ H) as (_ & _ & _ & ? & _). auto.
  - intros Hh. destruct (F2 _ H) as (_ & _ & _ & Dd2 & P2).
    specialize (P2 Hh).
    destruct (helper w1) as [h1|] eqn:E1.
    + specialize (P1 (ltac:(eauto))). lia.
    + rewrite (Dd2 eq_refl) in Hh. by destruct Hh.
Qed.

Lemma perform_all_summary cfg cb : ∀ w,
  started cfg w = true → pending w = false → summary cfg w (perform_all cb w).
Proof.
  induction cb as [|a cb IH]; intros w Hs Hp; simpl.
  - by apply summary_ret.
  - apply summary_bind.
    + by apply perform_summary.
    + intros w1 E1. pose proof (perform_summary cfg a w Hs Hp) as Hsum.
      apply IH.
      * destruct Hsum as (_ & _ & _ & F). by destruct (F _ E1).
      * eapply pending_after; eauto.
Qed.

(** Using the summary of a sub-computation the execution is stuck on. *)
Ltac use_summary lem :=
  match goal with
  | H : ?f ?w = ?o |- _ =>
      let S := fresh "S" in
      assert (S : summary _ w (f w))
        by (apply lem; first [by exec | by eauto]);
      rewrite H in S; clear H; unfold summary in S;
      cbn [effects state_of] in S;
      destruct S as (? & ? & ? & S);
      try (specialize (S _ eq_refl); destruct S as (? & ? & ? & ? & ?))
  end.

Lemma RequestCompleted_summary cfg w :
  started cfg w = true → is_Some (helper w) → summary cfg w (RequestCompleted w).
Proof.
  intros Hs [h Hh]. unfold RequestCompleted, Closure_Run.
  shapes Hs; try done; exec; try use_summary (perform_all_summary cfg).
  all: finish.
Qed.


Ltac unfold_handlers :=
  unfold deliver, TokenServiceHelper_OnGetTokenSuccess,
    TokenServiceHelper_OnGetTokenFailure, LoginTokenHelper_OnGetTokenSuccess,
    LoginTokenHelper_OnGetTokenFailure, StringCallback_Run, OnTokenFetched,
    OnGetUserInfoFailure, OnGetUserInfoSuccess, OnPolicyFetched,
    OnRegistrationStateChanged, OnClientError.

Lemma deliver_summary cfg e w :
  started cfg w = true → summary cfg w (deliver cfg e w).
Proof.
  intros Hs. destruct e as [tok exp|err|data|err|n|r|].
  7: { unfold deliver. destruct (non_null (helper w));
       [by apply delete_this_summary|by apply summary_ret]. }
  5: destruct n.
  all: unfold_handlers.
  all: shapes Hs; exec; try use_summary (RequestCompleted_summary cfg).
  all: finish.
Qed.

(** ** Whole attempts *)

Lemma deliver_all_summary cfg es : ∀ w,
  started cfg w = true → summary cfg w (deliver_all cfg es w).
Proof.
  induction es as [|e es IH]; intros w Hs; simpl.
  - by apply summary_ret.
  - apply summary_bind; [by apply deliver_summary|].
    intros w1 E. apply IH.
    destruct (deliver_summary cfg e w Hs) as (_ & _ & _ & F).
    by destruct (F _ E).
Qed.

Lemma begin_facts cfg s :
  compiled cfg (how s) = true →
  let o := begin cfg s (before s) in
  count is_Run_Closure (effects o) = 0 ∧
  never_two 0 (effects o) = true ∧
  ∀ w, state_of o = Some w →
    started cfg w = true ∧ pending w = true ∧
    outstanding 0 (effects o) = live_helpers w.
Proof.
  destruct s as [x [X r] force type [ts u|tok] cb]; intros Hc; simpl in Hc.
  all: unfold begin, before, construct, start, StartRegistration,
         StartRegistrationWithLoginToken, TokenServiceHelper_FetchAccessToken,
         LoginTokenHelper_FetchAccessToken; cbn [how on_done address policy_client should_force_load_policy registration_type].
  all: exec; cbn [effects state_of]; repeat split; intros; simplify_eq;
    observe; try done; exec; try done.
Qed.

Lemma after_after {S A} t1 t2 (o : Outcome S A) :
  after t1 (after t2 o) = after (t1 ++ t2) o.
Proof. destruct o; simpl; by rewrite app_assoc. Qed.

Lemma deliver_all_app cfg es1 es2 w :
  deliver_all cfg (es1 ++ es2) w
  = (deliver_all cfg es1 >> deliver_all cfg es2) w.
Proof.
  revert w. induction es1 as [|e es1 IH]; intros w; simpl.
  - unfold bind, ret. by destruct (deliver_all cfg es2 w).
  - unfold bind in *. destruct (deliver cfg e w) as [t [] w1|t f]; [|done].
    rewrite IH.
    destruct (deliver_all cfg es1 w1) as [t1 [] w2|t1 f1]; simpl; [|done].
    by rewrite after_after.
Qed.

(** What a whole attempt looks like. *)
Lemma attempt_facts cfg s es :
  compiled cfg (how s) = true →
  let o := attempt cfg s es in
  never_two 0 (effects o) = true ∧
  count is_Run_Closure (effects o) ≤ 1 ∧
  ∀ w, state_of o = Some w →
    started cfg w = true ∧
    outstanding 0 (effects o) = live_helpers w ∧
    (is_Some (helper w) →
     count is_Run_Closure (effects o) + b2n (pending w) = 1).
Proof.
  intros Hc. destruct (begin_facts cfg s Hc) as (C0 & N0 & F0).
  unfold attempt, bind. destruct (begin cfg s (before s)) as [t0 [] w0|t0 f0];
    cbn [effects state_of] in *.
  2: { repeat split; try done. lia. }
  destruct (F0 _ eq_refl) as (S0 & P0 & O0).
  destruct (deliver_all_summary cfg es w0 S0) as (N1 & C1 & _ & F1).
  rewrite effects_after, state_of_after, never_two_app, count_app,
    outstanding_app, N0, C0, O0, N1, P0 in *.
  repeat split; try done.
  - by destruct (F1 _ H).
  - by destruct (F1 _ H) as (_ & ? & _).
  - intros Hh. destruct (F1 _ H) as (_ & _ & _ & _ & P1). auto.
Qed.

(** ** Properties of the helper *)

Lemma attempt_app cfg s es1 es2 :
  attempt cfg s (es1 ++ es2)
  = match attempt cfg s es1 with
    | Ok t _ w => after t (deliver_all cfg es2 w)
    | Crash t f => Crash t f
    end.
Proof.
  unfold attempt, bind. destruct (begin cfg s (before s)) as [t0 [] w0|t0 f0]; [|done].
  rewrite deliver_all_app. unfold bind.
  destruct (deliver_all cfg es1 w0) as [t1 [] w1|t1 f1]; simpl; [|done].
  by rewrite after_after.
Qed.

Lemma deleted_silent cfg es w :
  started cfg w = true → helper w = None → effects (deliver_all cfg es w) = [].
Proof.
  intros Hs Hh. destruct (deliver_all_summary cfg es w Hs) as (_ & _ & D & _). auto.
Qed.

Lemma owner_deletes cfg w :
  started cfg w = true →
  ∀ w', state_of (deliver cfg OwnerDeletesHelper w) = Some w' →
        started cfg w' = true ∧ helper w' = None.
Proof.
  intros Hs w' E. split.
  - destruct (deliver_summary cfg OwnerDeletesHelper w Hs) as (_ & _ & _ & F).
    by destruct (F _ E).
  - unfold deliver in E. destruct (helper w) eqn:Hh; simpl in E.
    + by apply (proj2 (delete_this_summary cfg w Hs)).
    + by simplify_eq.
Qed.

Lemma nothing_after_deletion cfg es w :
  started cfg w = true →
  effects (deliver_all cfg (OwnerDeletesHelper :: es) w)
  = effects (deliver_all cfg [OwnerDeletesHelper] w).
Proof.
  intros Hs. cbn [deliver_all]. unfold bind.
  pose proof (owner_deletes cfg w Hs) as Hd.
  destruct (deliver cfg OwnerDeletesHelper w) as [t [] w1|t f]; [|done].
  destruct (Hd _ eq_refl) as [Hs1 Hh1].
  rewrite !effects_after. f_equal. by rewrite deleted_silent.
Qed.

Ltac framed :=
  unfold frame; cbn [effects state_of]; repeat split; intros; simplify_eq;
  observe; try done; eauto 6.

Lemma delete_this_frame w : frame w (delete_this w).
Proof.
  unfold delete_this, destructor.
  destruct w as [x [h|] [c|]]; exec; framed.
Qed.

Lemma frame_ret w : frame w (Ok [] tt w).
Proof. destruct w as [x [h|] c]; framed. Qed.

Lemma frame_bind (m k : M World unit) w :
  frame w (m w) → (∀ w1, frame w1 (k w1)) → frame w (bind m (λ _, k) w).
Proof.
  intros (R1 & N1 & S1 & F1) Hk. unfold bind.
  destruct (m w) as [t1 [] w1|t1 f]; cbn [effects state_of] in *; [|done].
  destruct (Hk w1) as (R2 & N2 & S2 & F2).
  destruct (F1 _ eq_refl) as (T1 & H1).
  unfold frame. rewrite effects_after, state_of_after, !count_app, R1, N1, S1, R2, N2, S2.
  repeat split; try done.
  - destruct (F2 _ H) as (T2 & _). congruence.
  - destruct (F2 _ H) as (_ & [H2|(h2 & E2 & H2)]); [by left|].
    destruct H1 as [H1|(h1 & E1 & H1)]; [congruence|].
    right. exists h1. split; [done|].
    destruct H1 as [H1|H1], H2 as [H2|H2]; rewrite H1 in E2; simplify_eq; rewrite H2; auto.
Qed.

Lemma perform_all_frame cb : ∀ w, frame w (perform_all cb w).
Proof.
  induction cb as [|a cb IH]; intros w; simpl.
  - apply frame_ret.
  - apply frame_bind; [|done]. destruct a; simpl; [apply delete_this_frame|].
    unfold free_the_client. destruct w as [x [h|] [c|]]; exec; framed.
Qed.

Ltac use_frame lem :=
  match goal with
  | H : ?f ?w = ?o |- _ =>
      let S := fresh "S" in
      assert (S : frame w (f w)) by apply lem;
      rewrite H in S; unfold frame in S;
      cbn [effects state_of] in S;
      destruct S as (? & ? & ? & S);
      try (specialize (S _ eq_refl); destruct S as (? & ?))
  end.

Lemma RequestCompleted_frame w : frame w (RequestCompleted w).
Proof.
  unfold RequestCompleted, Closure_Run.
  destruct w as [x [h|] [c|]]; exec; try use_frame perform_all_frame; framed.
  all: try match goal with H : _ ∨ _ |- _ => destruct H as [?|(? & ? & [?|?])] end;
    simplify_eq; eauto 6.
Qed.

Ltac cases_of_frame :=
  repeat match goal with
         | H : _ ∨ _ |- _ => destruct H as [?|(? & ? & [?|?])]
         end; simplify_eq.

Lemma owner_deletes_frame cfg w :
  started cfg w = true →
  let o := deliver cfg OwnerDeletesHelper w in
  count is_Register (effects o) = 0 ∧
  count is_New_UserInfoFetcher (effects o) = 0 ∧
  count is_Run_StringCallback (effects o) = 0 ∧
  ∀ w', state_of o = Some w' → started cfg w' = true ∧ helper w' = None.
Proof.
  intros Hs o. pose proof (owner_deletes cfg w Hs) as Hd. subst o.
  unfold deliver in *. destruct (helper w) eqn:Hh; cbn [non_null] in *.
  - by destruct (delete_this_frame w) as (? & ? & ? & _).
  - done.
Qed.

Lemma deliver_gate_closed cfg e w :
  started cfg w = true → unforced w = true → gate_closed e = true →
  registers_nothing (deliver cfg e w).
Proof.
  intros Hs Hu Hg. destruct e as [tok exp|err|data|err|n|r|].
  7: { destruct (owner_deletes_frame cfg w Hs) as (? & _ & _ & F).
       split; [done|]. intros w' E. destruct (F _ E) as [_ Hn].
       unfold unforced. by rewrite Hn. }
  5: destruct n.
  all: unfold_handlers.
  all: shapes Hs; cbn [unforced gate_closed helper] in *; observe; exec;
    try use_frame RequestCompleted_frame.
  all: unfold registers_nothing; cbn [effects state_of]; repeat split; intros;
    simplify_eq; cases_of_frame; cbn [unforced helper] in *; observe;
    try done.
  all: try match goal with
           | H : helper _ = _ |- _ => unfold unforced; rewrite H
           end;
    simplify_eq; observe; try done.
Qed.

Lemma deliver_before_token cfg e w :
  started cfg w = true → awaiting_token w = true → is_token e = false →
  skips_lookup awaiting_token (deliver cfg e w).
Proof.
  intros Hs Hu Hg. destruct e as [tok exp|err|data|err|n|r|]; try done.
  5: { destruct (owner_deletes_frame cfg w Hs) as (? & ? & _ & F).
       repeat split; try done. intros w' E. destruct (F _ E) as [_ Hn].
       unfold awaiting_token. by rewrite Hn. }
  3: destruct n.
  all: unfold_handlers.
  all: shapes Hs;
    cbn [is_token empty_token awaiting_token no_helpers helper] in *;
    observe; try done; exec; try use_frame RequestCompleted_frame.
  all: unfold skips_lookup; cbn [effects state_of]; repeat split; intros;
    simplify_eq; cases_of_frame;
    cbn [is_token empty_token awaiting_token no_helpers helper] in *;
    observe; try done;
    try match goal with
        | H : helper _ = _ |- _ => unfold awaiting_token, live_helpers; rewrite H
        end;
    simplify_eq; cbn [awaiting_token no_helpers helper] in *; observe;
    try done.
Qed.

Lemma deliver_empty_token cfg e w :
  started cfg w = true → awaiting_token w = true → empty_token e = true →
  skips_lookup no_helpers (deliver cfg e w).
Proof.
  intros Hs Hu Hg. destruct e as [tok exp|err|data|err|n|r|]; try done.
  all: unfold_handlers.
  all: shapes Hs;
    cbn [is_token empty_token awaiting_token no_helpers helper] in *;
    observe; try done; exec; try use_frame RequestCompleted_frame.
  all: unfold skips_lookup; cbn [effects state_of]; repeat split; intros;
    simplify_eq; cases_of_frame;
    cbn [is_token empty_token awaiting_token no_helpers helper] in *;
    observe; try done;
    try match goal with
        | H : helper _ = _ |- _ => unfold no_helpers, live_helpers; rewrite H
        end;
    simplify_eq; cbn [awaiting_token no_helpers helper] in *; observe;
    try done.
Qed.

Lemma deliver_no_helpers cfg e w :
  started cfg w = true → no_helpers w = true →
  skips_lookup no_helpers (deliver cfg e w).
Proof.
  intros Hs Hu. destruct e as [tok exp|err|data|err|n|r|].
  7: { destruct (owner_deletes_frame cfg w Hs) as (? & ? & _ & F).
       repeat split; try done. intros w' E. destruct (F _ E) as [_ Hn].
       unfold no_helpers, live_helpers. by rewrite Hn. }
  5: destruct n.
  all: unfold_handlers.
  all: shapes Hs;
    cbn [is_token empty_token awaiting_token no_helpers helper] in *;
    observe; try done; exec; try use_frame RequestCompleted_frame.
  all: unfold skips_lookup; cbn [effects state_of]; repeat split; intros;
    simplify_eq; cases_of_frame;
    cbn [is_token empty_token awaiting_token no_helpers helper] in *;
    observe; try done;
    try match goal with
        | H : helper _ = _ |- _ => unfold no_helpers, live_helpers; rewrite H
        end;
    simplify_eq; cbn [awaiting_token no_helpers helper] in *; observe;
    try done.
Qed.

Lemma deliver_all_silent cfg p (P : World → bool) (ok : Event → bool) :
  (∀ e w, started cfg w = true → P w = true → ok e = true →
          silent p P (deliver cfg e w)) →
  ∀ es w, started cfg w = true → P w = true →
          Forall (λ e, ok e = true) es →
          silent p P (deliver_all cfg es w).
Proof.
  intros Hstep. induction es as [|e es IH]; intros w Hs HP Hok; simpl.
  - split; [done|]. by intros w' [= <-].
  - inversion Hok as [|? ? Hok1 Hok2]; subst.
    destruct (Hstep e w Hs HP Hok1) as [C1 F1].
    destruct (deliver_summary cfg e w Hs) as (_ & _ & _ & G1).
    unfold bind. destruct (deliver cfg e w) as [t1 [] w1|t1 f1];
      cbn [effects state_of] in *; [|done].
    destruct (G1 _ eq_refl) as (Hs1 & _).
    destruct (IH w1 Hs1 (F1 _ eq_refl) Hok2) as [C2 F2].
    split.
    + rewrite effects_after, count_app. lia.
    + intros w'. rewrite state_of_after. apply F2.
Qed.

Lemma begin_state cfg s :
  let o := begin cfg s (before s) in
  count is_Register (effects o) = 0 ∧
  count is_New_UserInfoFetcher (effects o) = 0 ∧
  ∀ w, state_of o = Some w →
    awaiting_token w = true ∧
    unforced w = negb (should_force_load_policy s).
Proof.
  destruct s as [x [X r] force type [ts u|tok] cb].
  all: unfold begin, before, construct, start, StartRegistration,
         StartRegistrationWithLoginToken, TokenServiceHelper_FetchAccessToken,
         LoginTokenHelper_FetchAccessToken;
    cbn [how on_done address policy_client should_force_load_policy
         registration_type].
  all: exec; cbn [effects state_of]; repeat split; intros; simplify_eq;
    cbn [awaiting_token unforced helper] in *; observe; done.
Qed.

(** C2 (amended). With [should_force_load_policy_] false, an attempt whose
    user-info answers all lack the hosted-domain key never calls [Register].
    With [should_force_load_policy_] true the gate is open whatever the
    answer holds: as long as the attempt is pending and the client is not
    registered yet, [OnGetUserInfoSuccess] calls [Register] exactly once, with
    the cached token. *)
Theorem domain_gate :
  (∀ cfg s es,
     compiled cfg (how s) = true →
     should_force_load_policy s = false →
     Forall (λ e, gate_closed e = true) es →
     count is_Register (effects (attempt cfg s es)) = 0) ∧
  (∀ w h c data,
     helper w = Some h → should_force_load_policy_ h = true →
     client_ h = Some the_client →
     client w = Some c → is_registered c = false →
     List.filter is_Register (effects (OnGetUserInfoSuccess data w))
     = [Register_ (registration_type_ h) (oauth_access_token_ h)
                  "" false ""]).
Proof.
  split.
  - intros cfg s es Hc Hf Hes.
    destruct (begin_facts cfg s Hc) as (_ & _ & F0).
    destruct (begin_state cfg s) as (R0 & _ & G0).
    unfold attempt, bind.
    destruct (begin cfg s (before s)) as [t0 [] w0|t0 f0];
      cbn [effects state_of] in *; [|done].
    destruct (F0 _ eq_refl) as (S0 & _). destruct (G0 _ eq_refl) as (_ & U0).
    rewrite Hf in U0.
    destruct (deliver_all_silent cfg is_Register unforced gate_closed
                (deliver_gate_closed cfg) es w0 S0 U0 Hes) as [C _].
    rewrite effects_after, count_app. lia.
  - intros [x ? ?] [ctx p force type cb tsh lth uif tok] [X r] data.
    cbn. intros; simplify_eq. unfold OnGetUserInfoSuccess.
    exec; reflexivity.
Qed.

Lemma silent_lookup (post : World → bool) o :
  skips_lookup post o →
  silent is_New_UserInfoFetcher post o ∧ silent is_Register post o.
Proof. intros (? & ? & ?). by repeat split. Qed.

Lemma RequestCompleted_fires cfg w :
  started cfg w = true → pending w = true →
  count is_Run_Closure (effects (RequestCompleted w)) = 1.
Proof.
  intros Hs Hp. unfold RequestCompleted, Closure_Run.
  shapes Hs; try done; exec; try use_summary (perform_all_summary cfg);
    observe; lia.
Qed.

Lemma empty_token_fires cfg e w :
  started cfg w = true → awaiting_token w = true → empty_token e = true →
  pending w = true →
  count is_Run_Closure (effects (deliver cfg e w)) = 1.
Proof.
  intros Hs Hu Hg Hp. destruct e as [tok exp|err|data|err|n|r|]; try done.
  all: unfold_handlers.
  all: shapes Hs; cbn [empty_token awaiting_token helper] in *; observe;
    try done; exec.
  all: try match goal with
      | H : RequestCompleted ?w = _ |- _ =>
          let F := fresh in
          assert (F : count is_Run_Closure (effects (RequestCompleted w)) = 1)
            by (apply (RequestCompleted_fires cfg); by exec);
          rewrite H in F
      end; observe; try done.
Qed.

(** C3. For either entry point: when the first token answer of an attempt is
    the empty string (or a failure, which the token helper turns into the
    empty string), no [UserInfoFetcher] is built and [Register] is not
    called at any point of the attempt, whatever happens before and after;
    and if the attempt is still pending when the answer arrives, the
    completion callback, which takes no argument, runs exactly once. *)
Theorem empty_token_short_circuit cfg s es1 ev es2 :
  compiled cfg (how s) = true →
  Forall (λ e, is_token e = false) es1 → empty_token ev = true →
  let o := attempt cfg s (es1 ++ ev :: es2) in
  count is_New_UserInfoFetcher (effects o) = 0 ∧
  count is_Register (effects o) = 0 ∧
  ∀ w, state_of (attempt cfg s es1) = Some w → pending w = true →
       count is_Run_Closure (effects o) = 1.
Proof.
  intros Hc H1 Hev o. subst o.
  pose proof (attempt_facts cfg s (es1 ++ ev :: es2) Hc) as (_ & Hle & _).
  rewrite attempt_app in *.
  pose proof (attempt_facts cfg s es1 Hc) as (_ & _ & F1).
  assert (count is_New_UserInfoFetcher (effects (attempt cfg s es1)) = 0 ∧
          count is_Register (effects (attempt cfg s es1)) = 0 ∧
          ∀ w, state_of (attempt cfg s es1) = Some w →
               awaiting_token w = true) as (N1 & R1 & A1).
  { destruct (begin_facts cfg s Hc) as (_ & _ & F0).
    destruct (begin_state cfg s) as (R0 & N0 & G0).
    unfold attempt, bind.
    destruct (begin cfg s (before s)) as [t0 [] w0|t0 f0];
      cbn [effects state_of] in *; [|done].
    destruct (F0 _ eq_refl) as (S0 & _). destruct (G0 _ eq_refl) as (A0 & _).
    assert (Forall (λ e, negb (is_token e) = true) es1) as H1'.
    { eapply Forall_impl; [exact H1|]. intros e He. by rewrite He. }
    destruct (deliver_all_silent cfg is_New_UserInfoFetcher awaiting_token
                (λ e, negb (is_token e))
                (λ e w Hs HP Hok,
                   proj1 (silent_lookup _ _
                     (deliver_before_token cfg e w Hs HP
                        (proj1 (negb_true_iff _) Hok))))
                es1 w0 S0 A0 H1') as [C F].
    destruct (deliver_all_silent cfg is_Register awaiting_token
                (λ e, negb (is_token e))
                (λ e w Hs HP Hok,
                   proj2 (silent_lookup _ _
                     (deliver_before_token cfg e w Hs HP
                        (proj1 (negb_true_iff _) Hok))))
                es1 w0 S0 A0 H1') as [C' _].
    rewrite !effects_after, !count_app, state_of_after. repeat split; try lia.
    done. }
  destruct (attempt cfg s es1) as [t1 [] w1|t1 f1] eqn:E1;
    cbn [effects state_of] in *; [|by repeat split].
  destruct (F1 _ eq_refl) as (S1 & _ & P1). specialize (A1 _ eq_refl).
  cbn [deliver_all] in *. unfold bind in *.
  destruct (deliver_empty_token cfg ev w1 S1 A1 Hev) as (N2 & R2 & F2).
  pose proof (empty_token_fires cfg ev w1 S1 A1 Hev) as Hfire.
  destruct (deliver_summary cfg ev w1 S1) as (_ & _ & _ & G2).
  destruct (deliver cfg ev w1) as [t2 [] w2|t2 f2];
    cbn [effects state_of] in *.
  2: { rewrite ?effects_after, ?count_app in *; cbn [effects] in *.
       repeat split; try lia.
       intros w [= <-] Hp. specialize (Hfire Hp).
       unfold pending in Hp. destruct (helper w1) eqn:Hh; [|done].
       specialize (P1 (ltac:(eauto))). unfold pending in P1.
       rewrite Hh, Hp in P1. simpl in P1. lia. }
  destruct (G2 _ eq_refl) as (S2 & _).
  destruct (deliver_all_silent cfg is_New_UserInfoFetcher no_helpers
              (λ _, true)
              (λ e w Hs HP _,
                 proj1 (silent_lookup _ _
                          (deliver_no_helpers cfg e w Hs HP)))
              es2 w2 S2 (F2 _ eq_refl)) as [C3 _].
  { by apply Forall_forall. }
  destruct (deliver_all_silent cfg is_Register no_helpers
              (λ _, true)
              (λ e w Hs HP _,
                 proj2 (silent_lookup _ _
                          (deliver_no_helpers cfg e w Hs HP)))
              es2 w2 S2 (F2 _ eq_refl)) as [C4 _].
  { by apply Forall_forall. }
  rewrite ?effects_after, ?count_app in *. repeat split; try lia.
  intros w [= <-] Hp. specialize (Hfire Hp). lia.
Qed.

(** The events that complete a pending attempt, and only they, run the
    completion callback. *)
Lemma deliver_fires cfg e w :
  started cfg w = true → pending w = true →
  count is_Run_Closure (effects (deliver cfg e w))
  = b2n (completing cfg w e).
Proof.
  intros Hs Hp. destruct e as [tok exp|err|data|err|n|r|].
  7: { unfold deliver, delete_this, destructor.
       shapes Hs; try done; exec; reflexivity. }
  5: destruct n.
  all: unfold_handlers; unfold completing, client_registered.
  all: shapes Hs; try done; cbn [unforced helper] in *; exec.
  all: try match goal with
           | H : RequestCompleted ?w = _ |- _ =>
               let F := fresh in
               assert (F : count is_Run_Closure (effects (RequestCompleted w))
                           = 1)
                 by (apply (RequestCompleted_fires cfg); by exec);
               rewrite H in F
           end; observe; try done.
Qed.

Lemma RequestCompleted_starts cfg w :
  started cfg w = true → pending w = true →
  ∃ t, effects (RequestCompleted w)
       = RemoveObserver_ (this w) :: Run_Closure :: t.
Proof.
  intros Hs Hp. unfold RequestCompleted, Closure_Run.
  shapes Hs; try done; exec; cbn [effects]; eauto.
Qed.

Lemma deliver_detaches cfg e w :
  started cfg w = true → pending w = true → completing cfg w e = true →
  In (RemoveObserver_ (this w)) (effects (deliver cfg e w)).
Proof.
  intros Hs Hp. destruct e as [tok exp|err|data|err|n|r|]; try done.
  5: destruct n; try done.
  all: unfold_handlers; unfold completing, client_registered.
  all: shapes Hs; try done; cbn [unforced helper] in *; exec; try done.
  all: intros _.
  all: match goal with
       | H : RequestCompleted ?w = _ |- _ =>
           let F := fresh in
           destruct (RequestCompleted_starts cfg w) as [? F];
           [by exec|by exec|]; rewrite H in F; cbn [effects this] in F;
           subst
       end; cbn [effects In]; tauto.
Qed.

Lemma count_attempt_app cfg s es1 es2 :
  count is_Run_Closure (effects (attempt cfg s es1))
  ≤ count is_Run_Closure (effects (attempt cfg s (es1 ++ es2))).
Proof.
  rewrite attempt_app. destruct (attempt cfg s es1) as [t [] w|t f]; [|done].
  rewrite effects_after, count_app. cbn [effects]. lia.
Qed.

Lemma count_attempt_step cfg s es e w :
  state_of (attempt cfg s es) = Some w →
  count is_Run_Closure (effects (attempt cfg s (es ++ [e])))
  = count is_Run_Closure (effects (attempt cfg s es))
    + count is_Run_Closure (effects (deliver cfg e w)).
Proof.
  intros E. rewrite attempt_app.
  destruct (attempt cfg s es) as [t [] w0|t f]; [|done].
  cbn [state_of effects] in *. simplify_eq.
  rewrite effects_after, count_app. f_equal.
  cbn [deliver_all]. unfold bind.
  destruct (deliver cfg e w) as [t1 [] w1|t1 f1]; [|done].
  cbn [effects after ret]. by rewrite ?app_nil_r.
Qed.

Lemma callback_not_yet cfg s es w :
  compiled cfg (how s) = true →
  state_of (attempt cfg s es) = Some w → pending w = true →
  count is_Run_Closure (effects (attempt cfg s es)) = 0.
Proof.
  intros Hc E Hp. destruct (attempt_facts cfg s es Hc) as (_ & _ & F).
  destruct (F _ E) as (_ & _ & P).
  assert (is_Some (helper w)) as Hh
    by (unfold pending in Hp; destruct (helper w); [eauto|done]).
  specialize (P Hh). rewrite Hp in P. simpl in P. lia.
Qed.

Lemma callback_by_event cfg s es w e :
  compiled cfg (how s) = true →
  state_of (attempt cfg s es) = Some w → pending w = true →
  count is_Run_Closure (effects (attempt cfg s (es ++ [e])))
  = b2n (completing cfg w e).
Proof.
  intros Hc E Hp. destruct (attempt_facts cfg s es Hc) as (_ & _ & F).
  destruct (F _ E) as (Hs & _).
  rewrite (count_attempt_step cfg s es e w E).
  rewrite (callback_not_yet cfg s es w Hc E Hp).
  by rewrite (deliver_fires cfg e w Hs Hp).
Qed.

Lemma callback_for_good cfg s es w e es2 :
  compiled cfg (how s) = true →
  state_of (attempt cfg s es) = Some w → pending w = true →
  completing cfg w e = true →
  count is_Run_Closure (effects (attempt cfg s (es ++ e :: es2))) = 1.
Proof.
  intros Hc E Hp He.
  destruct (attempt_facts cfg s (es ++ e :: es2) Hc) as (_ & H1 & _).
  pose proof (count_attempt_app cfg s (es ++ [e]) es2) as H2.
  rewrite <- app_assoc in H2. cbn [app] in H2.
  rewrite (callback_by_event cfg s es w e Hc E Hp), He in H2.
  simpl in H2. cbn zeta in H1. lia.
Qed.

(** The helper is in the observer set of the client exactly while the
    attempt is pending. *)
Lemma attached_while_pending cfg w :
  started cfg w = true → observing w = pending w.
Proof. intros Hs. shapes Hs; exec; done. Qed.

(** C1 (amended). For either entry point and every sequence of events after
    it, the completion callback runs at most once. While the attempt is
    pending it has not run; the event that completes the attempt (an empty
    token or a token failure, a failed user-info lookup, a user-info answer
    that fails the domain gate or finds the client registered,
    [OnRegistrationStateChanged], [OnClientError]) runs it, and the count is
    then exactly one whatever the callback does and whatever follows; any
    other event leaves it at zero, and so does the owner deleting the helper
    before completion, whatever follows. As long as the helper exists the
    callback has run exactly once if [client_] is cleared and not at all
    otherwise; and nothing at all happens once the owner has deleted the
    helper. *)
Theorem completion_callback_at_most_once cfg s :
  compiled cfg (how s) = true →
  (∀ es, count is_Run_Closure (effects (attempt cfg s es)) ≤ 1) ∧
  (∀ es w,
     state_of (attempt cfg s es) = Some w → pending w = true →
     count is_Run_Closure (effects (attempt cfg s es)) = 0 ∧
     (∀ e es2, completing cfg w e = true →
        count is_Run_Closure (effects (attempt cfg s (es ++ e :: es2))) = 1) ∧
     (∀ e, completing cfg w e = false →
        count is_Run_Closure (effects (attempt cfg s (es ++ [e]))) = 0) ∧
     (∀ es2,
        count is_Run_Closure
          (effects (attempt cfg s (es ++ OwnerDeletesHelper :: es2))) = 0)) ∧
  (∀ es w h,
     state_of (attempt cfg s es) = Some w → helper w = Some h →
     count is_Run_Closure (effects (attempt cfg s es))
     = match client_ h with Some _ => 0 | None => 1 end) ∧
  (∀ es1 es2,
     effects (attempt cfg s (es1 ++ OwnerDeletesHelper :: es2))
     = effects (attempt cfg s (es1 ++ [OwnerDeletesHelper]))).
Proof.
  intros Hc.
  assert (∀ es1 es2,
     effects (attempt cfg s (es1 ++ OwnerDeletesHelper :: es2))
     = effects (attempt cfg s (es1 ++ [OwnerDeletesHelper]))) as Hgone.
  { intros es1 es2. rewrite !attempt_app.
    destruct (attempt_facts cfg s es1 Hc) as (_ & _ & F).
    destruct (attempt cfg s es1) as [t [] w|t f]; [|done].
    destruct (F _ eq_refl) as (Hs & _). rewrite !effects_after.
    f_equal. by apply nothing_after_deletion. }
  split; [|split; [|split; [|exact Hgone]]].
  - intros es. by destruct (attempt_facts cfg s es Hc) as (_ & ? & _).
  - intros es w E Hp. split; [by eapply callback_not_yet|].
    split; [|split].
    + intros e es2 He. by eapply callback_for_good.
    + intros e He. by rewrite (callback_by_event cfg s es w e Hc E Hp), He.
    + intros es2. rewrite Hgone.
      by rewrite (callback_by_event cfg s es w _ Hc E Hp).
  - intros es w h E Hh. destruct (attempt_facts cfg s es Hc) as (_ & _ & F).
    destruct (F _ E) as (_ & _ & P). specialize (P (ltac:(eauto))).
    unfold pending in P. rewrite Hh in P. destruct (client_ h); simpl in P; lia.
Qed.

(** C4. In any state an attempt can reach. While the attempt is pending the
    helper is in the client's observer set; the destructor takes it out, and
    deleting the helper does so without running the completion callback.
    Every event that completes the attempt, by whichever path, calls
    [RemoveObserver] for the helper, and from then on, whatever follows, the
    attempt is not pending and the helper is not in the observer set. And
    whenever the attempt is not pending (completed, or the helper deleted)
    the helper is not in the observer set. *)
Theorem teardown_detaches cfg s es w :
  compiled cfg (how s) = true →
  state_of (attempt cfg s es) = Some w →
  (pending w = true →
   observing w = true ∧
   (∃ w1 t w2,
      destructor w = Ok [RemoveObserver_ (this w)] tt w1 ∧
      observing w1 = false ∧
      delete_this w = Ok t tt w2 ∧
      count is_Run_Closure t = 0 ∧
      helper w2 = None ∧ observing w2 = false) ∧
   (∀ e, completing cfg w e = true →
      In (RemoveObserver_ (this w)) (effects (deliver cfg e w)) ∧
      ∀ es2 w', state_of (attempt cfg s (es ++ e :: es2)) = Some w' →
                pending w' = false ∧ observing w' = false)) ∧
  (pending w = false → observing w = false).
Proof.
  intros Hc E. destruct (attempt_facts cfg s es Hc) as (_ & _ & F).
  destruct (F _ E) as (Hs & _). clear F.
  split; [|intros Hp; by rewrite (attached_while_pending cfg w Hs)].
  intros Hp. split; [by rewrite (attached_while_pending cfg w Hs)|].
  split.
  - clear E. unfold delete_this, destructor.
    shapes Hs; try done; exec; try done.
    all: do 3 eexists; repeat split; exec; done.
  - intros e He. split; [by apply (deliver_detaches cfg)|].
    intros es2 w' E'.
    pose proof (callback_for_good cfg s es w e es2 Hc E Hp He) as H1.
    destruct (attempt_facts cfg s (es ++ e :: es2) Hc) as (_ & _ & F').
    destruct (F' _ E') as (Hs' & _ & P').
    assert (pending w' = false) as Hp'.
    { unfold pending. destruct (helper w') as [h'|] eqn:Hh'; [|done].
      specialize (P' (ltac:(eauto))). unfold pending in P'.
      rewrite Hh' in P'. destruct (non_null (client_ h')); [|done].
      simpl in P'. lia. }
    split; [done|]. by rewrite (attached_while_pending cfg w' Hs').
Qed.

(** C5. In any state an attempt can reach with the attempt still pending:
    when the user-info answer passes the domain gate but the client is
    already registered, [OnGetUserInfoSuccess] does not call [Register],
    reports the defect and runs the completion callback, once. *)
Theorem already_registered_completes cfg s es w c data :
  compiled cfg (how s) = true →
  state_of (attempt cfg s es) = Some w →
  pending w = true →
  client w = Some c → is_registered c = true →
  HasKey data kGetHostedDomainKey = true ∨ unforced w = false →
  let o := OnGetUserInfoSuccess data w in
  count is_Register (effects o) = 0 ∧
  count is_Run_Closure (effects o) = 1 ∧
  In NotReached_logged (effects o).
Proof.
  intros Hc E Hp Hcl Hr Hg. destruct (attempt_facts cfg s es Hc) as (_ & _ & F).
  destruct (F _ E) as (Hs & _). clear F E.
  unfold OnGetUserInfoSuccess.
  shapes Hs; try done; cbn [unforced helper] in *; observe; simplify_eq;
    observe; subst.
  all: destruct Hg as [Hg|Hg]; [|apply negb_false_iff in Hg; subst];
    exec; try done.
  all: match goal with
      | H : RequestCompleted ?w = _ |- _ =>
          let F := fresh in
          assert (F : count is_Run_Closure (effects (RequestCompleted w)) = 1)
            by (apply (RequestCompleted_fires cfg); by exec);
          rewrite H in F;
          use_frame RequestCompleted_frame
      end; observe; repeat split; try done; simpl; tauto.
Qed.

Ltac inj_helper :=
  repeat match goal with
         | H : Build_CloudPolicyClientRegistrationHelper _ _ _ _ _ _ _ _ _
               = Build_CloudPolicyClientRegistrationHelper _ _ _ _ _ _ _ _ _
           |- _ => injection H as ? ? ? ? ? ? ? ? ?; subst
         end.

Lemma RequestCompleted_clears w t w1 h1 :
  RequestCompleted w = Ok t tt w1 → helper w1 = Some h1 → client_ h1 = None.
Proof.
  unfold RequestCompleted, Closure_Run.
  destruct w as [x [[ctx p force type cb tsh lth uif tok]|] c];
    exec; intros E Hh; simplify_eq; try done.
  use_frame perform_all_frame. cases_of_frame; unfold set_client_ in *;
    simplify_eq/=; inj_helper; done.
Qed.

(** C7. Once [RequestCompleted] has run, running it again on the same helper
    changes nothing and calls nothing: same heap, empty trace. *)
Theorem RequestCompleted_idempotent w t w1 :
  RequestCompleted w = Ok t tt w1 →
  is_Some (helper w1) →
  RequestCompleted w1 = Ok [] tt w1.
Proof.
  intros E [h1 Hh1]. pose proof (RequestCompleted_clears _ _ _ _ E Hh1) as Hn.
  unfold RequestCompleted, bind, self. rewrite Hh1. simpl. by rewrite Hn.
Qed.

(** C9. On a pending attempt [RequestCompleted] first takes the helper out of
    the observer set and clears [client_], and only then runs the callback:
    the callback starts from a heap where both are done. A callback that
    deletes the helper, frees the client, or both, then runs without a
    fault. And a helper that survives completion is destroyed without any
    call on the client. *)
Theorem RequestCompleted_detaches_first :
  (∀ x h c cb,
     client_ h = Some the_client → callback_ h = Some cb →
     RequestCompleted {| this := x; helper := Some h; client := Some c |}
     = after [RemoveObserver_ x]
         (Closure_Run (Some cb)
            {| this := x; helper := Some (set_client_ None h);
               client := Some {| observers_ := observers_ c ∖ {[x]};
                                 is_registered := is_registered c |} |})) ∧
  (∀ x h c cb,
     client_ h = Some the_client → callback_ h = Some cb → NoDup cb →
     is_Some (state_of (RequestCompleted
                {| this := x; helper := Some h; client := Some c |}))) ∧
  (∀ w t w1,
     RequestCompleted w = Ok t tt w1 → is_Some (helper w1) →
     destructor w1 = Ok [] tt w1 ∧
     count is_RemoveObserver (effects (delete_this w1)) = 0).
Proof.
  repeat split.
  - intros x [ctx p force type cb' tsh lth uif tok] [X r] cb; simpl.
    intros -> ->. unfold RequestCompleted, Closure_Run. unfold_prims.
    by destruct (perform_all cb _).
  - intros x [ctx p force type cb' tsh lth uif tok] [X r] cb; simpl.
    intros -> -> Hnd. unfold RequestCompleted, Closure_Run.
    assert (cb = [] ∨ cb = [delete_helper] ∨ cb = [free_client] ∨
            cb = [delete_helper; free_client] ∨
            cb = [free_client; delete_helper]) as Hcb.
    { destruct cb as [|a [|b [|c l]]]; auto.
      - destruct a; auto.
      - apply NoDup_cons in Hnd as [Hab _].
        destruct a, b; auto; exfalso; apply Hab; by left.
      - exfalso. apply NoDup_cons in Hnd as [Ha Hnd].
        apply NoDup_cons in Hnd as [Hb Hnd].
        apply NoDup_cons in Hnd as [Hc _].
        destruct a, b, c; set_solver. }
    destruct Hcb as [->|[->|[->|[->| ->]]]];
      unfold perform_all, perform, delete_this, destructor; exec; eauto.
  - destruct H0 as [h1 Hh1].
    pose proof (RequestCompleted_clears _ _ _ _ H Hh1) as Hn.
    destruct w1 as [x1 h1' c1]; simplify_eq/=.
    unfold destructor, bind, self, this_ptr; simpl. by rewrite Hn.
  - destruct H0 as [h1 Hh1].
    pose proof (RequestCompleted_clears _ _ _ _ H Hh1) as Hn.
    destruct w1 as [x1 h1' c1]; simplify_eq/=.
    destruct h1 as [ctx p force type cb' tsh lth uif tok]; simplify_eq/=.
    unfold delete_this, destructor. exec; reflexivity.
Qed.

Lemma count_0_filter p t : count p t = 0 → List.filter p t = [].
Proof.
  induction t as [|e t IH]; simpl; [done|]. destruct (p e); [lia|]. auto.
Qed.

Lemma OnTokenFetched_frame cfg tok w :
  count is_Run_StringCallback (effects (OnTokenFetched cfg tok w)) = 0.
Proof.
  unfold OnTokenFetched.
  destruct w as [x [[ctx p force type cb tsh lth uif tok']|] c]; exec;
    try use_frame RequestCompleted_frame; observe; done.
Qed.

Ltac after_fetch E :=
  revert E;
  unfold TokenServiceHelper_FetchAccessToken, LoginTokenHelper_FetchAccessToken;
  match goal with
  | |- context [_ ?w0 = Ok _ _ _] =>
      destruct w0 as [? [[? ? ? ? ? ? ? ? ?]|] ?]
  end;
  exec; intros E; simplify_eq.

Ltac callback_once cfg lem :=
  unfold TokenServiceHelper_OnGetTokenSuccess,
    TokenServiceHelper_OnGetTokenFailure, LoginTokenHelper_OnGetTokenSuccess,
    LoginTokenHelper_OnGetTokenFailure, StringCallback_Run;
  exec; cbn [effects List.filter is_Run_StringCallback]; try done;
  match goal with
  | H : OnTokenFetched cfg ?tok ?w = _ |- _ =>
      let F := fresh in
      pose proof (lem cfg tok w) as F; rewrite H in F;
      cbn [effects] in F; by rewrite (count_0_filter _ _ F)
  end.

(** C6. After a fetch with callback [cb], by either helper, the answer of the
    token provider runs [cb] exactly once: with the token on success, with
    the empty string on failure; a failure reaches the caller as that call
    and nothing else. *)
Theorem token_helpers_notify_once cfg cb :
  (∀ ts username w0 t0 w,
     TokenServiceHelper_FetchAccessToken cfg ts username cb w0 = Ok t0 tt w →
     (∀ tok exp,
        List.filter is_Run_StringCallback
          (effects (TokenServiceHelper_OnGetTokenSuccess cfg
                      (Some (next_request ts)) tok exp w))
        = [Run_StringCallback cb tok]) ∧
     (∀ err,
        List.filter is_Run_StringCallback
          (effects (TokenServiceHelper_OnGetTokenFailure cfg
                      (Some (next_request ts)) err w))
        = [Run_StringCallback cb ""]) ∧
     (∀ err id, cb = Bind_other id →
        TokenServiceHelper_OnGetTokenFailure cfg (Some (next_request ts)) err w
        = Ok [Run_StringCallback cb ""] tt w)) ∧
  (∀ login_refresh_token context w0 t0 w,
     LoginTokenHelper_FetchAccessToken cfg login_refresh_token context cb w0
     = Ok t0 tt w →
     (∀ tok exp,
        List.filter is_Run_StringCallback
          (effects (LoginTokenHelper_OnGetTokenSuccess cfg tok exp w))
        = [Run_StringCallback cb tok]) ∧
     (∀ err,
        List.filter is_Run_StringCallback
          (effects (LoginTokenHelper_OnGetTokenFailure cfg err w))
        = [Run_StringCallback cb ""]) ∧
     (∀ err id, cb = Bind_other id →
        LoginTokenHelper_OnGetTokenFailure cfg err w
        = Ok [Run_StringCallback cb ""] tt w)).
Proof.
  split.
  - intros ts username w0 t0 w E. after_fetch E.
    all: repeat split; intros; subst; try destruct cb; try done;
      callback_once cfg OnTokenFetched_frame.
  - intros tok context w0 t0 w E. after_fetch E.
    all: repeat split; intros; subst; try destruct cb; try done;
      callback_once cfg OnTokenFetched_frame.
Qed.

(** C10. On a non-Android build two usernames that both meet the
    precondition give the same run of [FetchAccessToken]: same request to
    the token service, same outcome, same heap. *)
Theorem username_only_in_precondition cfg ts cb u1 u2 w :
  OS_ANDROID cfg = false →
  negb (string_empty u1) || RefreshTokenIsAvailable ts = true →
  negb (string_empty u2) || RefreshTokenIsAvailable ts = true →
  TokenServiceHelper_FetchAccessToken cfg ts u1 cb w
  = TokenServiceHelper_FetchAccessToken cfg ts u2 cb w.
Proof.
  intros Ha H1 H2. unfold TokenServiceHelper_FetchAccessToken.
  by rewrite Ha, H1, H2.
Qed.

(** C8. For either entry point and every sequence of events, no two helpers
    are alive at any point of the trace. In any state the attempt can reach:
    when a token answer arrives, [OnTokenFetched] begins by deleting the
    token helper, for an empty and a non-empty token alike, and leaves no
    token helper behind; when a user-info answer arrives, both
    [OnGetUserInfoSuccess] and [OnGetUserInfoFailure] begin by deleting the
    fetcher. *)
Theorem one_helper_at_a_time cfg s es :
  compiled cfg (how s) = true →
  never_two 0 (effects (attempt cfg s es)) = true ∧
  ∀ w, state_of (attempt cfg s es) = Some w →
    (is_Some (token_consumer w) → ∀ tok,
       (∃ k t, (k = a_TokenServiceHelper ∨ k = a_LoginTokenHelper) ∧
               effects (OnTokenFetched cfg tok w) = Delete k :: t) ∧
       (∀ w', state_of (OnTokenFetched cfg tok w) = Some w' →
              token_consumer w' = None)) ∧
    (user_info_delegate w = true →
       (∀ data, ∃ t, effects (OnGetUserInfoSuccess data w)
                     = Delete a_UserInfoFetcher :: t) ∧
       (∀ err, ∃ t, effects (OnGetUserInfoFailure err w)
                    = Delete a_UserInfoFetcher :: t)).
Proof.
  intros Hc. destruct (attempt_facts cfg s es Hc) as (N & _ & F).
  split; [done|]. intros w E. destruct (F _ E) as (Hs & _). clear F E N.
  split.
  - intros [c Hcons] tok. unfold OnTokenFetched.
    shapes Hs; try done; split.
    all: try (exec; cbn [effects]; eauto 6; fail).
    all: intros w'; exec; try use_frame RequestCompleted_frame;
      cbn [effects state_of]; intros; simplify_eq; try done.
    all: cases_of_frame; unfold set_client_ in *; simplify_eq/=;
      unfold token_consumer;
      repeat match goal with H : helper _ = _ |- _ => rewrite H end; done.
  - intros Hd. unfold OnGetUserInfoSuccess, OnGetUserInfoFailure.
    shapes Hs; try done; split; intros; exec; cbn [effects]; eauto.
Qed.

(** ** The properties at sample attempts *)

(** C1, counterexample. The helper is deleted while the token request is
    outstanding: the callback never runs. And a registration that is only
    ever followed by [OnPolicyFetched]: the callback has not run. *)
Lemma completion_callback_not_always_once :
  count is_Run_Closure
    (effects (attempt desktop_debug alice [OwnerDeletesHelper])) = 0 ∧
  count is_Run_Closure
    (effects (attempt desktop_debug alice
                [TokenSuccess "tok123"%string 0; GetUserInfoSuccess hosted;
                 Notify PolicyFetched])) = 0.
Proof. split; vm_compute; reflexivity. Qed.

Lemma completion_callback_at_most_once_witness :
  count is_Run_Closure
    (effects (attempt desktop_debug alice_deleting
                ([] ++ TokenFailure 1
                    :: [GetUserInfoFailure 1; Notify ClientError]))) = 1 ∧
  count is_Run_Closure
    (effects (attempt desktop_debug alice
                ([TokenSuccess "tok123"%string 0] ++ OwnerDeletesHelper
                    :: [GetUserInfoFailure 1]))) = 0.
Proof.
  split.
  - pose proof (proj1 (proj2 (completion_callback_at_most_once
                                desktop_debug alice_deleting eq_refl))
                  [] (world_after desktop_debug alice_deleting [])) as H.
    destruct H as (_ & H & _); [vm_compute; reflexivity..|].
    apply H. reflexivity.
  - pose proof (proj1 (proj2 (completion_callback_at_most_once
                                desktop_debug alice eq_refl))
                  [TokenSuccess "tok123"%string 0]
                  (world_after desktop_debug alice
                     [TokenSuccess "tok123"%string 0])) as H.
    destruct H as (_ & _ & _ & H); [vm_compute; reflexivity..|].
    apply H.
Defined.

(** C2, counterexample. Policy load is forced, but some other party
    registers the client while the user-info lookup is in flight:
    [Register] is not called. *)
Lemma forced_but_not_registered :
  should_force_load_policy alice_forced = true ∧
  count is_Register
    (effects (attempt desktop_debug alice_forced
                [TokenSuccess "tok123"%string 0; ClientRegistered true;
                 GetUserInfoSuccess ∅])) = 0.
Proof. split; vm_compute; reflexivity. Qed.

Lemma domain_gate_witness :
  count is_Register
    (effects (attempt desktop_debug alice
                [TokenSuccess "tok123"%string 0; GetUserInfoSuccess ∅])) = 0 ∧
  List.filter is_Register
    (effects (OnGetUserInfoSuccess ∅
                (world_after desktop_debug alice_forced
                             [TokenSuccess "tok123"%string 0])))
  = [Register_ 1 "tok123"%string ""%string false ""%string].
Proof.
  split.
  - apply (proj1 domain_gate desktop_debug alice); [reflexivity..|].
    repeat constructor.
  - refine (proj2 domain_gate
              (world_after desktop_debug alice_forced
                           [TokenSuccess "tok123"%string 0])
              {| context_ := Some the_context; client_ := Some the_client;
                 should_force_load_policy_ := true; registration_type_ := 1;
                 callback_ := Some [];
                 token_service_helper_ := None; login_token_helper_ := None;
                 user_info_fetcher_ := Some new_UserInfoFetcher;
                 oauth_access_token_ := "tok123"%string |}
              {| observers_ := {[3; 7]}; is_registered := false |}
              ∅ _ _ _ _ _); vm_compute; reflexivity.
Defined.

Lemma empty_token_short_circuit_witness :
  let o := attempt desktop_debug alice
             ([Notify PolicyFetched] ++ TokenFailure 1
                :: [GetUserInfoSuccess hosted]) in
  count is_New_UserInfoFetcher (effects o) = 0 ∧
  count is_Register (effects o) = 0 ∧
  count is_Run_Closure (effects o) = 1.
Proof.
  assert (Forall (λ e, is_token e = false) [Notify PolicyFetched]) as HF
    by (repeat constructor).
  destruct (empty_token_short_circuit desktop_debug alice
              [Notify PolicyFetched] (TokenFailure 1)
              [GetUserInfoSuccess hosted] eq_refl HF eq_refl)
    as (H1 & H2 & H3).
  intros o. split; [exact H1|]. split; [exact H2|].
  apply (H3 (world_after desktop_debug alice [Notify PolicyFetched]));
    vm_compute; reflexivity.
Defined.

Lemma teardown_detaches_witness :
  let w := world_after desktop_debug alice [TokenSuccess "tok123"%string 0] in
  observing w = true ∧
  (∃ w1 t w2,
     destructor w = Ok [RemoveObserver_ (this w)] tt w1 ∧
     observing w1 = false ∧
     delete_this w = Ok t tt w2 ∧
     count is_Run_Closure t = 0 ∧ helper w2 = None ∧ observing w2 = false) ∧
  In (RemoveObserver_ 7)
     (effects (deliver desktop_debug (GetUserInfoFailure 1) w)) ∧
  observing (world_after desktop_debug alice
               ([TokenSuccess "tok123"%string 0]
                  ++ GetUserInfoFailure 1 :: [Notify ClientError])) = false.
Proof.
  intros w.
  pose proof (teardown_detaches desktop_debug alice
                [TokenSuccess "tok123"%string 0] w eq_refl) as H.
  destruct H as [H _]; [vm_compute; reflexivity|].
  destruct H as (H1 & H2 & H3); [vm_compute; reflexivity|].
  destruct (H3 (GetUserInfoFailure 1)) as [H4 H5]; [vm_compute; reflexivity|].
  split; [exact H1|]. split; [exact H2|]. split; [exact H4|].
  apply (H5 [Notify ClientError]). vm_compute; reflexivity.
Defined.

Lemma already_registered_completes_witness :
  let w := world_after desktop_debug alice
             [TokenSuccess "tok123"%string 0; ClientRegistered true] in
  let o := OnGetUserInfoSuccess hosted w in
  count is_Register (effects o) = 0 ∧
  count is_Run_Closure (effects o) = 1 ∧
  In NotReached_logged (effects o).
Proof.
  apply (already_registered_completes desktop_debug alice
           [TokenSuccess "tok123"%string 0; ClientRegistered true]
           (world_after desktop_debug alice
              [TokenSuccess "tok123"%string 0; ClientRegistered true])
           {| observers_ := {[3; 7]}; is_registered := true |} hosted).
  1-5: vm_compute; reflexivity.
  left. vm_compute; reflexivity.
Defined.

Lemma token_helpers_notify_once_witness :
  let fetch :=
    TokenServiceHelper_FetchAccessToken desktop_debug signed_in
      "alice@co.com"%string (Bind_other 0) alice_before_fetch in
  let login_fetch :=
    LoginTokenHelper_FetchAccessToken desktop_debug "refresh-token"%string
      (Some the_context) (Bind_other 0) alice_before_login_fetch in
  List.filter is_Run_StringCallback
    (effects (TokenServiceHelper_OnGetTokenFailure desktop_debug
                (Some (next_request signed_in)) 1 (heap_of fetch)))
  = [Run_StringCallback (Bind_other 0) ""%string] ∧
  List.filter is_Run_StringCallback
    (effects (LoginTokenHelper_OnGetTokenSuccess desktop_debug
                "tok123"%string 0 (heap_of login_fetch)))
  = [Run_StringCallback (Bind_other 0) "tok123"%string].
Proof.
  intros fetch login_fetch. split.
  - refine (proj1 (proj2 (proj1 (token_helpers_notify_once desktop_debug
                                   (Bind_other 0))
              signed_in "alice@co.com"%string alice_before_fetch
              (effects fetch) (heap_of fetch) _)) 1).
    vm_compute; reflexivity.
  - refine (proj1 (proj2 (token_helpers_notify_once desktop_debug
                            (Bind_other 0))
              "refresh-token"%string (Some the_context)
              alice_before_login_fetch
              (effects login_fetch) (heap_of login_fetch) _) "tok123"%string 0).
    vm_compute; reflexivity.
Defined.

Lemma RequestCompleted_idempotent_witness :
  let w := world_after desktop_debug alice [] in
  RequestCompleted (heap_of (RequestCompleted w))
  = Ok [] tt (heap_of (RequestCompleted w)).
Proof.
  intros w.
  apply (RequestCompleted_idempotent w (effects (RequestCompleted w))).
  - vm_compute; reflexivity.
  - vm_compute. eexists; reflexivity.
Defined.

Lemma RequestCompleted_detaches_first_witness :
  is_Some (state_of (RequestCompleted
    {| this := 7;
       helper := Some (pending_helper [free_client; delete_helper] None None);
       client := Some shared_client |})) ∧
  (let w := world_after desktop_debug alice [] in
   destructor (heap_of (RequestCompleted w))
   = Ok [] tt (heap_of (RequestCompleted w))).
Proof.
  split.
  - apply (proj1 (proj2 RequestCompleted_detaches_first) 7
             (pending_helper [free_client; delete_helper] None None)
             shared_client [free_client; delete_helper]);
      [reflexivity|reflexivity|].
    apply NoDup_cons; split; [|apply NoDup_singleton].
    rewrite list_elem_of_singleton. discriminate.
  - intros w.
    apply (proj2 (proj2 RequestCompleted_detaches_first) w
             (effects (RequestCompleted w))).
    + vm_compute; reflexivity.
    + vm_compute. eexists; reflexivity.
Defined.

Lemma one_helper_at_a_time_witness :
  never_two 0
    (effects (attempt desktop_debug alice
       [TokenSuccess "tok123"%string 0; GetUserInfoSuccess hosted;
        Notify ClientError])) = true.
Proof.
  apply (proj1 (one_helper_at_a_time desktop_debug alice _ eq_refl)).
Defined.

Lemma username_only_in_precondition_witness :
  TokenServiceHelper_FetchAccessToken desktop_debug signed_in
    "alice@co.com"%string Bind_OnTokenFetched alice_before_fetch
  = TokenServiceHelper_FetchAccessToken desktop_debug signed_in
      ""%string Bind_OnTokenFetched alice_before_fetch.
Proof.
  apply username_only_in_precondition; reflexivity.
Defined.

(** ** Scenarios *)

(** Scenario 1 of the spec: token, hosted domain, registration succeeds. *)
Example scenario_registration_succeeds :
  List.filter (λ e, is_Register e || is_Run_Closure e)
    (effects (attempt desktop_debug alice
       [TokenSuccess "tok123"%string 0; GetUserInfoSuccess hosted;
        ClientRegistered true; Notify RegistrationStateChanged]))
  = [Register_ 1 "tok123"%string ""%string false ""%string; Run_Closure].
Proof. vm_compute; reflexivity. Qed.

(** Scenario 5 of the spec: [OnPolicyFetched], then [OnClientError]. *)
Example scenario_error_after_policy_fetched :
  count is_Run_Closure
    (effects (attempt desktop_debug alice
       [TokenSuccess "tok123"%string 0; GetUserInfoSuccess hosted;
        Notify PolicyFetched; Notify ClientError; Notify ClientError])) = 1.
Proof. vm_compute; reflexivity. Qed.

(** On Android the username is part of the request. *)
Example android_request_names_the_user :
  effects (TokenServiceHelper_FetchAccessToken
             {| OS_ANDROID := true; DCHECK_IS_ON := true;
                kDeviceManagementServiceOAuth := "dm"%string;
                oauth2_chrome_client_id := ""%string;
                oauth2_chrome_client_secret := ""%string |}
             signed_in "alice@co.com"%string Bind_OnTokenFetched
             alice_before_fetch)
  = [StartRequestForUsername_ "alice@co.com"%string
       ({[ "dm"%string ]} ∪ {[ kServiceScopeGetUserInfo ]})].
Proof. vm_compute; reflexivity. Qed.

(** A client error while the token request is outstanding completes the
    attempt; the token and user-info answers that follow find [client_]
    cleared when they reach the registration decision. *)
Example late_answers_after_early_error :
  ∃ t, attempt desktop_debug alice
         [Notify ClientError; TokenSuccess "tok123"%string 0;
          GetUserInfoSuccess hosted]
       = Crash t NullDereference ∧ count is_Run_Closure t = 1.
Proof. eexists. split; vm_compute; reflexivity. Qed.

(** * Further properties *)

(** Unfold the start of an attempt down to the primitives. *)
Ltac unfold_start :=
  unfold begin, before, construct, start, StartRegistration,
    StartRegistrationWithLoginToken, TokenServiceHelper_FetchAccessToken,
    LoginTokenHelper_FetchAccessToken;
  cbn [how on_done address policy_client should_force_load_policy
       registration_type].

(** ** Notifications and answers, one by one *)

Lemma after_nil {S A} (o : Outcome S A) : after [] o = o.
Proof. by destruct o. Qed.

Lemma policy_fetched_dropped cfg w :
  started cfg w = true → deliver cfg (Notify PolicyFetched) w = Ok [] tt w.
Proof.
  intros Hs. unfold deliver, OnPolicyFetched. shapes Hs; exec; reflexivity.
Qed.

(** X1. [OnPolicyFetched] is ignored for good: a policy-fetched notification
    anywhere in the life of an attempt changes neither its trace nor its
    outcome. *)
Theorem policy_fetched_is_ignored cfg s es1 es2 :
  compiled cfg (how s) = true →
  attempt cfg s (es1 ++ Notify PolicyFetched :: es2)
  = attempt cfg s (es1 ++ es2).
Proof.
  intros Hc. rewrite !attempt_app.
  destruct (attempt_facts cfg s es1 Hc) as (_ & _ & F).
  destruct (attempt cfg s es1) as [t [] w|t f]; [|done].
  destruct (F _ eq_refl) as (Hs & _).
  cbn [deliver_all]. unfold bind at 1.
  by rewrite (policy_fetched_dropped cfg w Hs), after_nil.
Qed.

Lemma policy_fetched_is_ignored_witness :
  attempt desktop_debug alice
    ([TokenSuccess "tok123"%string 0] ++ Notify PolicyFetched
       :: [GetUserInfoSuccess hosted; Notify ClientError])
  = attempt desktop_debug alice
      ([TokenSuccess "tok123"%string 0]
         ++ [GetUserInfoSuccess hosted; Notify ClientError]).
Proof.
  apply (policy_fetched_is_ignored desktop_debug alice
           [TokenSuccess "tok123"%string 0]
           [GetUserInfoSuccess hosted; Notify ClientError]).
  reflexivity.
Defined.

Lemma delete_this_succeeds cfg w :
  started cfg w = true → is_Some (helper w) →
  is_Some (state_of (delete_this w)).
Proof.
  intros Hs [h Hh]. unfold delete_this, destructor.
  shapes Hs; try done; exec; cbn [state_of]; eauto.
Qed.

(** X2. No helper outlives its owner. Whenever an attempt ends with the
    registration helper deleted (by its owner or by the completion
    callback), every token helper and user-info fetcher it created has been
    deleted. And the owner can delete the helper after any sequence of
    events: the deletion does not fault and leaves nothing behind. *)
Theorem no_helper_left_behind cfg s es :
  compiled cfg (how s) = true →
  (∀ w, state_of (attempt cfg s es) = Some w → helper w = None →
        outstanding 0 (effects (attempt cfg s es)) = 0) ∧
  (is_Some (state_of (attempt cfg s es)) →
   ∃ w, state_of (attempt cfg s (es ++ [OwnerDeletesHelper])) = Some w ∧
        helper w = None ∧
        outstanding 0 (effects (attempt cfg s (es ++ [OwnerDeletesHelper])))
        = 0).
Proof.
  intros Hc.
  assert (∀ es w, state_of (attempt cfg s es) = Some w → helper w = None →
                  outstanding 0 (effects (attempt cfg s es)) = 0) as Hgone.
  { intros es' w E Hn. destruct (attempt_facts cfg s es' Hc) as (_ & _ & F).
    destruct (F _ E) as (_ & -> & _). unfold live_helpers. by rewrite Hn. }
  split; [apply Hgone|]. intros [w E].
  destruct (attempt_facts cfg s es Hc) as (_ & _ & F).
  destruct (F _ E) as (Hs & _).
  assert (∃ w', state_of (attempt cfg s (es ++ [OwnerDeletesHelper]))
                = Some w') as [w' E'].
  { rewrite attempt_app. destruct (attempt cfg s es) as [t [] w0|]; [|done].
    simplify_eq/=. rewrite state_of_after. unfold bind, deliver.
    destruct (helper w) eqn:Hh; cbn [non_null].
    - destruct (delete_this_succeeds cfg w Hs) as [w' Hw']; [eauto|].
      destruct (delete_this w) as [t' [] w''|]; [|done]. simpl. eauto.
    - simpl. eauto. }
  exists w'. split; [done|].
  assert (helper w' = None) as Hn.
  { revert E'. rewrite attempt_app.
    destruct (attempt cfg s es) as [t [] w0|]; [|done]. simplify_eq/=.
    rewrite state_of_after. unfold bind.
    pose proof (owner_deletes cfg w Hs) as Hd.
    destruct (deliver cfg OwnerDeletesHelper w) as [t' [] w''|]; [|done].
    simpl. intros [= <-]. by destruct (Hd _ eq_refl). }
  split; [done|]. by apply (Hgone _ w').
Qed.

Lemma no_helper_left_behind_witness :
  ∃ w, state_of (attempt desktop_debug alice
                   ([TokenSuccess "tok123"%string 0]
                      ++ [OwnerDeletesHelper])) = Some w ∧
       helper w = None ∧
       outstanding 0
         (effects (attempt desktop_debug alice
                     ([TokenSuccess "tok123"%string 0]
                        ++ [OwnerDeletesHelper]))) = 0.
Proof.
  apply (proj2 (no_helper_left_behind desktop_debug alice
                  [TokenSuccess "tok123"%string 0] eq_refl)).
  vm_compute. eexists; reflexivity.
Defined.

(** X3. A failed user-info lookup ends the attempt: in any state an attempt
    can reach with the lookup outstanding and the attempt pending,
    [OnGetUserInfoFailure] deletes the fetcher, detaches from the client and
    runs the completion callback, in this order, and does not call
    [Register]. *)
Theorem user_info_failure_completes cfg s es w err :
  compiled cfg (how s) = true →
  state_of (attempt cfg s es) = Some w →
  pending w = true → user_info_delegate w = true →
  let o := deliver cfg (GetUserInfoFailure err) w in
  (∃ t, effects o
        = Delete a_UserInfoFetcher :: RemoveObserver_ (this w)
            :: Run_Closure :: t) ∧
  count is_Run_Closure (effects o) = 1 ∧
  count is_Register (effects o) = 0.
Proof.
  intros Hc E Hp Hd. destruct (attempt_facts cfg s es Hc) as (_ & _ & F).
  destruct (F _ E) as (Hs & _). clear F E.
  unfold deliver, OnGetUserInfoFailure, RequestCompleted, Closure_Run.
  shapes Hs; try done; exec; try done.
  all: try use_frame perform_all_frame;
    try use_summary (perform_all_summary cfg).
  all: cbn [effects]; repeat split; eauto; observe; lia.
Qed.

Lemma user_info_failure_completes_witness :
  let w := world_after desktop_debug alice [TokenSuccess "tok123"%string 0] in
  let o := deliver desktop_debug (GetUserInfoFailure 1) w in
  (∃ t, effects o
        = Delete a_UserInfoFetcher :: RemoveObserver_ (this w)
            :: Run_Closure :: t) ∧
  count is_Run_Closure (effects o) = 1 ∧
  count is_Register (effects o) = 0.
Proof.
  apply (user_info_failure_completes desktop_debug alice
           [TokenSuccess "tok123"%string 0]
           (world_after desktop_debug alice [TokenSuccess "tok123"%string 0])
           1);
    vm_compute; reflexivity.
Defined.

(** X4. How client notifications end a pending attempt. [OnClientError] runs
    the completion callback once, on every build. So does
    [OnRegistrationStateChanged] when the client is registered or assertions
    are compiled out; with assertions compiled in and the client not
    registered it is fatal, before the callback. *)
Theorem registration_notifications_complete cfg s es w c :
  compiled cfg (how s) = true →
  state_of (attempt cfg s es) = Some w →
  pending w = true → client w = Some c →
  count is_Run_Closure (effects (deliver cfg (Notify ClientError) w)) = 1 ∧
  (DCHECK_IS_ON cfg = false ∨ is_registered c = true →
   count is_Run_Closure
     (effects (deliver cfg (Notify RegistrationStateChanged) w)) = 1) ∧
  (DCHECK_IS_ON cfg = true → is_registered c = false →
   deliver cfg (Notify RegistrationStateChanged) w = Crash [] DcheckFailure).
Proof.
  intros Hc E Hp Hcl. destruct (attempt_facts cfg s es Hc) as (_ & _ & F).
  destruct (F _ E) as (Hs & _). clear F E.
  unfold deliver, OnClientError, OnRegistrationStateChanged.
  shapes Hs; try done; cbn [client] in Hcl; simplify_eq; cbn [is_registered].
  all: repeat split; [|intros [Hd| ->]|intros Hd ->]; exec; try done.
  all: match goal with
       | H : RequestCompleted ?w = _ |- _ =>
           let F := fresh in
           assert (F : count is_Run_Closure (effects (RequestCompleted w)) = 1)
             by (apply (RequestCompleted_fires cfg); by exec);
           rewrite H in F
       end; observe; done.
Qed.

Lemma registration_notifications_complete_witness :
  let w := world_after desktop_debug alice
             [TokenSuccess "tok123"%string 0; GetUserInfoSuccess hosted] in
  count is_Run_Closure
    (effects (deliver desktop_debug (Notify ClientError) w)) = 1 ∧
  deliver desktop_debug (Notify RegistrationStateChanged) w
  = Crash [] DcheckFailure.
Proof.
  intros w.
  pose proof (registration_notifications_complete desktop_debug alice
                [TokenSuccess "tok123"%string 0; GetUserInfoSuccess hosted]
                w {| observers_ := {[3; 7]}; is_registered := false |}
                eq_refl) as H.
  destruct H as (H1 & _ & H3); [vm_compute; reflexivity..|].
  split; [exact H1|]. apply H3; reflexivity.
Defined.

(** X5. The registration decision. In any state an attempt can reach with
    the attempt pending, the lookup outstanding and the client not
    registered: a user-info answer leads to [Register] exactly if it has the
    hosted-domain key or policy load is forced; then the attempt stays
    pending and the callback waits for the client's notification. Otherwise
    the attempt completes at once, without [Register]. *)
Theorem registration_decision cfg s es w c data :
  compiled cfg (how s) = true →
  state_of (attempt cfg s es) = Some w →
  pending w = true → user_info_delegate w = true →
  client w = Some c → is_registered c = false →
  let o := deliver cfg (GetUserInfoSuccess data) w in
  if HasKey data kGetHostedDomainKey || negb (unforced w) then
    count is_Register (effects o) = 1 ∧
    count is_Run_Closure (effects o) = 0 ∧
    ∃ w', state_of o = Some w' ∧ pending w' = true
  else
    count is_Register (effects o) = 0 ∧
    count is_Run_Closure (effects o) = 1.
Proof.
  intros Hc E Hp Hd Hcl Hr. destruct (attempt_facts cfg s es Hc) as (_ & _ & F).
  destruct (F _ E) as (Hs & _). clear F E.
  unfold deliver, OnGetUserInfoSuccess.
  shapes Hs; try done; cbn [unforced helper client] in *; observe;
    simplify_eq; cbn [is_registered] in *; subst.
  all: destruct (HasKey data kGetHostedDomainKey) eqn:Hk, force;
    cbn [orb negb]; exec; observe; eauto.
  all: match goal with
       | H : RequestCompleted ?w = _ |- _ =>
           let F := fresh in
           assert (F : count is_Run_Closure (effects (RequestCompleted w)) = 1)
             by (apply (RequestCompleted_fires cfg); by exec);
           rewrite H in F;
           use_frame RequestCompleted_frame
       end; observe; done.
Qed.

Lemma registration_decision_witness :
  let w := world_after desktop_debug alice [TokenSuccess "tok123"%string 0] in
  let o := deliver desktop_debug (GetUserInfoSuccess hosted) w in
  count is_Register (effects o) = 1 ∧
  count is_Run_Closure (effects o) = 0 ∧
  ∃ w', state_of o = Some w' ∧ pending w' = true.
Proof.
  apply (registration_decision desktop_debug alice
           [TokenSuccess "tok123"%string 0]
           (world_after desktop_debug alice [TokenSuccess "tok123"%string 0])
           {| observers_ := {[3; 7]}; is_registered := false |} hosted);
    vm_compute; reflexivity.
Defined.

(** X6. A user-info answer that arrives after the attempt has completed (a
    client error came first, the lookup was started by the token that
    followed): if it fails the domain gate it only releases the fetcher; if
    it passes the gate, [OnGetUserInfoSuccess] goes on to
    [client_->is_registered()] with [client_] cleared, a null dereference,
    after releasing the fetcher. Neither runs the callback again nor calls
    [Register]. *)
Theorem lookup_answer_after_completion cfg s es w data :
  compiled cfg (how s) = true →
  state_of (attempt cfg s es) = Some w →
  pending w = false → user_info_delegate w = true →
  let o := deliver cfg (GetUserInfoSuccess data) w in
  if HasKey data kGetHostedDomainKey || negb (unforced w) then
    o = Crash [Delete a_UserInfoFetcher] NullDereference
  else
    effects o = [Delete a_UserInfoFetcher] ∧ is_Some (state_of o).
Proof.
  intros Hc E Hp Hd. destruct (attempt_facts cfg s es Hc) as (_ & _ & F).
  destruct (F _ E) as (Hs & _). clear F E.
  unfold deliver, OnGetUserInfoSuccess, RequestCompleted.
  shapes Hs; try done; cbn [unforced helper] in *.
  all: destruct (HasKey data kGetHostedDomainKey) eqn:Hk, force;
    cbn [orb negb]; exec; cbn [effects state_of]; eauto.
Qed.

Lemma lookup_answer_after_completion_witness :
  deliver desktop_debug (GetUserInfoSuccess hosted)
    (world_after desktop_debug alice
       [Notify ClientError; TokenSuccess "tok123"%string 0])
  = Crash [Delete a_UserInfoFetcher] NullDereference.
Proof.
  apply (lookup_answer_after_completion desktop_debug alice
           [Notify ClientError; TokenSuccess "tok123"%string 0]
           (world_after desktop_debug alice
              [Notify ClientError; TokenSuccess "tok123"%string 0]) hosted);
    vm_compute; reflexivity.
Defined.

(** ** Starting an attempt *)

Lemma scopes_built cfg :
  (∅ ∪ {[kDeviceManagementServiceOAuth cfg]} ∪ {[kServiceScopeGetUserInfo]}
   : gset string) = token_scopes cfg.
Proof. unfold token_scopes. by rewrite (left_id_L ∅ (∪)). Qed.

(** X7. What [StartRegistration] and [StartRegistrationWithLoginToken] do.
    If the assertions on the way hold (or are compiled out), the helper
    becomes an observer of the client, builds its token helper and makes one
    token request, for the device-management and userinfo scopes; the
    attempt is then pending. Otherwise the start is fatal: at once, with
    nothing done, if the client is already registered; after the observer
    was added and the token helper built, but before any request, if there
    is neither a username nor a refresh token. *)
Theorem start_outcome cfg s :
  if start_allowed cfg s then
    effects (begin cfg s (before s))
    = AddObserver_ (address s) :: token_request cfg (how s) ∧
    ∃ w, state_of (begin cfg s (before s)) = Some w ∧
         pending w = true ∧ observing w = true
  else
    ∃ t, begin cfg s (before s) = Crash t DcheckFailure ∧
         t = if is_registered (policy_client s) then []
             else [AddObserver_ (address s); New a_TokenServiceHelper].
Proof.
  destruct s as [x [X r] force type [ts u|tok] cb];
    unfold start_allowed, token_request; unfold_start; cbn [is_registered].
  all: exec; rewrite ?scopes_built; cbn [effects state_of]; eauto.
  all: try (split; [reflexivity|]; eexists; split; [reflexivity|]); exec;
    try done.
Qed.

(** X8. One request per token helper: after a fetch, a second
    [FetchAccessToken] on the same helper is fatal when assertions are
    compiled in, and no second request goes out. *)
Theorem second_fetch_is_fatal cfg :
  DCHECK_IS_ON cfg = true →
  (∀ ts username cb w0 t0 w ts' username' cb',
     TokenServiceHelper_FetchAccessToken cfg ts username cb w0 = Ok t0 tt w →
     TokenServiceHelper_FetchAccessToken cfg ts' username' cb' w
     = Crash [] DcheckFailure) ∧
  (∀ tok context cb w0 t0 w tok' context' cb',
     LoginTokenHelper_FetchAccessToken cfg tok context cb w0 = Ok t0 tt w →
     LoginTokenHelper_FetchAccessToken cfg tok' context' cb' w
     = Crash [] DcheckFailure).
Proof.
  intros Hd. split.
  - intros ts username cb w0 t0 w ts' username' cb' E. after_fetch E.
    all: unfold TokenServiceHelper_FetchAccessToken; exec; done.
  - intros tok context cb w0 t0 w tok' context' cb' E. after_fetch E.
    all: unfold LoginTokenHelper_FetchAccessToken; exec; done.
Qed.

Lemma second_fetch_is_fatal_witness :
  let fetch :=
    TokenServiceHelper_FetchAccessToken desktop_debug signed_in
      "alice@co.com"%string Bind_OnTokenFetched alice_before_fetch in
  let login_fetch :=
    LoginTokenHelper_FetchAccessToken desktop_debug "refresh-token"%string
      (Some the_context) Bind_OnTokenFetched alice_before_login_fetch in
  TokenServiceHelper_FetchAccessToken desktop_debug signed_in
    "alice@co.com"%string Bind_OnTokenFetched (heap_of fetch)
  = Crash [] DcheckFailure ∧
  LoginTokenHelper_FetchAccessToken desktop_debug "refresh-token"%string
    (Some the_context) Bind_OnTokenFetched (heap_of login_fetch)
  = Crash [] DcheckFailure.
Proof.
  intros fetch login_fetch. split.
  - apply (proj1 (second_fetch_is_fatal desktop_debug eq_refl)
             signed_in "alice@co.com"%string Bind_OnTokenFetched
             alice_before_fetch (effects fetch) (heap_of fetch)).
    vm_compute; reflexivity.
  - apply (proj2 (second_fetch_is_fatal desktop_debug eq_refl)
             "refresh-token"%string (Some the_context) Bind_OnTokenFetched
             alice_before_login_fetch (effects login_fetch)
             (heap_of login_fetch)).
    vm_compute; reflexivity.
Defined.

Lemma filter_or_nil (p q : Effect → bool) t :
  count p t = 0 → count q t = 0 → List.filter (λ e, p e || q e) t = [].
Proof.
  induction t as [|e t IH]; simpl; [done|].
  destruct (p e), (q e); simpl; try lia. auto.
Qed.

(** X9. The whole chain on the successful path. For either entry point, any
    non-empty token and any user-info answer that passes the domain gate:
    when the token arrives, the user-info answer arrives and the client then
    reports the registration, the helper has called [Register] exactly once,
    with the configured type and the fetched token and nothing else, and
    after that has run the completion callback exactly once. *)
Theorem registration_chain cfg s tok exp data :
  compiled cfg (how s) = true →
  start_allowed cfg s = true →
  is_registered (policy_client s) = false →
  string_empty tok = false →
  HasKey data kGetHostedDomainKey || should_force_load_policy s = true →
  List.filter (λ e, is_Register e || is_Run_Closure e)
    (effects (attempt cfg s
       [TokenSuccess tok exp; GetUserInfoSuccess data;
        ClientRegistered true; Notify RegistrationStateChanged]))
  = [Register_ (registration_type s) tok ""%string false ""%string;
     Run_Closure].
Proof.
  destruct s as [x [X r] force type [ts u|rt] cb];
    unfold compiled, start_allowed, attempt; unfold_start;
    cbn [is_registered]; intros Hc Ha -> Ht Hg.
  all: unfold deliver_all, deliver, TokenServiceHelper_OnGetTokenSuccess,
    LoginTokenHelper_OnGetTokenSuccess, StringCallback_Run, OnTokenFetched,
    OnGetUserInfoSuccess, OnRegistrationStateChanged, RequestCompleted,
    Closure_Run.
  all: destruct tok as [|a tok']; [done|].
  all: apply orb_prop in Hg.
  all: exec; try done; try (by destruct Hg).
  all: try use_frame perform_all_frame;
    try use_summary (perform_all_summary cfg).
  all: cbn [effects List.filter is_Register is_Run_Closure orb].
  all: do 2 f_equal;
    first [apply (filter_or_nil is_Register is_Run_Closure t)
          |apply (filter_or_nil is_Register is_Run_Closure (t ++ []))];
    rewrite ?app_nil_r; observe; first [done|lia].
Qed.

Lemma registration_chain_witness :
  List.filter (λ e, is_Register e || is_Run_Closure e)
    (effects (attempt desktop_debug alice_forced
       [TokenSuccess "tok123"%string 0; GetUserInfoSuccess ∅;
        ClientRegistered true; Notify RegistrationStateChanged]))
  = [Register_ 1 "tok123"%string ""%string false ""%string; Run_Closure].
Proof.
  apply (registration_chain desktop_debug alice_forced "tok123"%string 0 ∅);
    reflexivity.
Defined.

(** ** The shared client *)

Lemma registered_after_app r es1 es2 :
  registered_after r (es1 ++ es2)
  = registered_after (registered_after r es1) es2.
Proof.
  revert r. induction es1 as [|e es1 IH]; intros r; [done|].
  destruct e; simpl; auto.
Qed.

Lemma client_kept_trans es1 es2 w w1 w2 :
  client_kept es1 w w1 → client_kept es2 w1 w2 →
  client_kept (es1 ++ es2) w w2.
Proof.
  intros [T1 K1] [T2 K2]. split; [congruence|].
  intros c2 H2. destruct (K2 _ H2) as (c1 & H1 & R2 & O2).
  destruct (K1 _ H1) as (c & H & R1 & O1).
  exists c. split; [done|]. split.
  - by rewrite registered_after_app, <- R1.
  - intros o Ho. rewrite O2 by congruence. by apply O1.
Qed.

Lemma keeps_client_bind es1 es2 (m k : M World unit) w :
  keeps_client es1 w (m w) →
  (∀ w1, keeps_client es2 w1 (k w1)) →
  keeps_client (es1 ++ es2) w (bind m (λ _, k) w).
Proof.
  intros H1 H2 w'. unfold bind.
  destruct (m w) as [t1 [] w1|]; [|done]. rewrite state_of_after. intros E.
  eapply client_kept_trans; [by apply H1|by apply H2].
Qed.

(** A step that returns a heap written out in full: read the client off
    it. [keeps] is the property to show. *)
Ltac kept keeps :=
  unfold keeps; cbn [state_of]; intros ? ?; simplify_eq;
  (split; [reflexivity|]); cbn [client this]; intros ? ?; simplify_eq;
  eexists; (split; [reflexivity|]); cbn [is_registered observers_];
  (split; [reflexivity|]); intros ? ?;
  rewrite ?elem_of_difference, ?elem_of_union, ?elem_of_singleton; tauto.

Lemma delete_this_keeps w : keeps_client [] w (delete_this w).
Proof.
  unfold delete_this, destructor.
  destruct w as [x [h|] [[X r]|]]; exec; try done; kept keeps_client.
Qed.

Lemma perform_all_keeps cb : ∀ w, keeps_client [] w (perform_all cb w).
Proof.
  induction cb as [|a cb IH]; intros w; simpl.
  - destruct w as [x h [[X r]|]]; exec; kept keeps_client.
  - apply (keeps_client_bind [] []); [|done].
    destruct a; simpl; [apply delete_this_keeps|].
    unfold free_the_client. destruct w as [x h [[X r]|]]; exec; try done;
      kept keeps_client.
Qed.

(** Using what a sub-computation the execution is stuck on keeps. *)
Ltac use_keeps keeps lem :=
  match goal with
  | H : ?f ?w = Ok _ _ ?s |- _ =>
      let K := fresh "K" in
      assert (K : keeps [] w (f w)) by apply lem;
      rewrite H in K; specialize (K _ eq_refl); clear H
  end.

Ltac kept_via kept_to keeps after_events :=
  match goal with
  | K : kept_to _ _ ?s |- keeps _ _ (Ok _ _ ?s) =>
      let T := fresh in
      let K' := fresh in
      let R := fresh in
      let O := fresh in
      destruct K as [T K']; cbn [this client] in T, K';
      unfold keeps; cbn [state_of]; intros ? [= <-];
      (split; [exact T|]); clear T;
      let c' := fresh "c'" in
      let Hc' := fresh "Hc'" in
      intros c' Hc'; destruct (K' _ Hc') as (? & ? & R & O); simplify_eq;
      cbn [is_registered observers_ after_events this client] in *;
      eexists; (split; [reflexivity|]); (split; [exact R|]);
      let o := fresh "o" in
      let Ho := fresh "Ho" in
      intros o Ho; rewrite (O o Ho), ?elem_of_difference, ?elem_of_union,
        ?elem_of_singleton; tauto
  end.

Lemma RequestCompleted_keeps w : keeps_client [] w (RequestCompleted w).
Proof.
  unfold RequestCompleted, Closure_Run.
  destruct w as [x [h|] [[X r]|]]; exec; try done;
    try (use_keeps keeps_client perform_all_keeps;
         kept_via client_kept keeps_client registered_after);
    kept keeps_client.
Qed.

Lemma deliver_keeps cfg e w : keeps_client [e] w (deliver cfg e w).
Proof.
  destruct e as [tok exp|err|data|err|n|r|].
  7: { unfold deliver. destruct w as [x [h|] c]; cbn [non_null helper].
       - apply delete_this_keeps.
       - destruct c as [[X r]|]; exec; kept keeps_client. }
  5: destruct n.
  all: unfold_handlers.
  all: destruct w as [x [h|] [[X r']|]]; exec; try done;
    try (use_keeps keeps_client RequestCompleted_keeps;
         kept_via client_kept keeps_client registered_after);
    kept keeps_client.
Qed.

Lemma deliver_all_keeps cfg es : ∀ w,
  keeps_client es w (deliver_all cfg es w).
Proof.
  induction es as [|e es IH]; intros w; simpl.
  - destruct w as [x h [[X r]|]]; exec; kept keeps_client.
  - apply (keeps_client_bind [e] es); [apply deliver_keeps|done].
Qed.

Lemma begin_keeps cfg s : keeps_client [] (before s) (begin cfg s (before s)).
Proof.
  destruct s as [x [X r] force type [ts u|tok] cb].
  all: unfold_start.
  all: exec; try done; kept keeps_client.
Qed.

(** X10. The client is shared, and the helper treats it so. Whatever happens
    in an attempt, as long as the client exists its registration state is
    what the client itself last reported (the helper never changes it), and
    every other observer is in the observer set exactly if it was there
    before the attempt: the helper adds and removes only itself. *)
Theorem client_left_as_found cfg s es w c :
  state_of (attempt cfg s es) = Some w → client w = Some c →
  is_registered c = registered_after (is_registered (policy_client s)) es ∧
  ∀ o, o ≠ address s →
       (o ∈ observers_ c ↔ o ∈ observers_ (policy_client s)).
Proof.
  intros E Hc.
  assert (keeps_client ([] ++ es) (before s) (attempt cfg s es)) as K.
  { apply keeps_client_bind; [apply begin_keeps|].
    intros w1. apply deliver_all_keeps. }
  destruct (K _ E) as [_ K']. destruct (K' _ Hc) as (c0 & H0 & R & O).
  simpl in H0. by simplify_eq.
Qed.

Lemma client_left_as_found_witness :
  let es := [TokenSuccess "tok123"%string 0; GetUserInfoSuccess hosted;
             ClientRegistered true; Notify RegistrationStateChanged] in
  let c := {| observers_ := {[3]}; is_registered := true |} in
  client (world_after desktop_debug alice es) = Some c ∧
  is_registered c = registered_after false es ∧
  ∀ o, o ≠ 7 → (o ∈ observers_ c ↔ o ∈ ({[3]} : gset ObserverId)).
Proof.
  intros es c.
  assert (client (world_after desktop_debug alice es) = Some c) as Hc
    by (vm_compute; reflexivity).
  split; [exact Hc|].
  apply (client_left_as_found desktop_debug alice es
           (world_after desktop_debug alice es) c);
    [vm_compute; reflexivity|exact Hc].
Defined.

(** ** Where the token goes *)

Lemma teardown_only_bind (m k : M World unit) w :
  teardown_only (m w) → (∀ w1, teardown_only (k w1)) →
  teardown_only (bind m (λ _, k) w).
Proof.
  unfold teardown_only, bind. intros H1 H2.
  destruct (m w) as [t1 [] w1|]; cbn [effects] in *; [|done].
  rewrite effects_after. apply Forall_app. split; [done|apply H2].
Qed.

Lemma delete_this_teardown w : teardown_only (delete_this w).
Proof.
  unfold delete_this, destructor. destruct w as [x [h|] [c|]]; exec;
    unfold teardown_only; cbn [effects]; repeat constructor.
Qed.

Lemma perform_all_teardown cb : ∀ w, teardown_only (perform_all cb w).
Proof.
  induction cb as [|a cb IH]; intros w; simpl.
  - unfold teardown_only; cbn [effects]; repeat constructor.
  - apply teardown_only_bind; [|done].
    destruct a; simpl; [apply delete_this_teardown|].
    unfold free_the_client. destruct (client w);
      unfold teardown_only; cbn [effects]; repeat constructor.
Qed.

Lemma RequestCompleted_teardown w : teardown_only (RequestCompleted w).
Proof.
  unfold RequestCompleted, Closure_Run.
  destruct w as [x [h|] [c|]]; exec;
    try (unfold teardown_only; cbn [effects]; by repeat constructor).
  all: match goal with
       | H : perform_all ?cb ?w = _ |- _ =>
           pose proof (perform_all_teardown cb w) as T; rewrite H in T
       end; unfold teardown_only in *; cbn [effects] in *;
    repeat (apply List.Forall_cons; [done|]); done.
Qed.

Lemma teardown_flows e w t :
  Forall (λ eff, is_teardown eff = true) t → Forall (flows_ok e w) t.
Proof.
  intros H. eapply Forall_impl; [exact H|]. intros eff He. by destruct eff.
Qed.

Lemma deliver_token_step cfg e w :
  started cfg w = true → token_step e w (deliver cfg e w).
Proof.
  intros Hs. destruct e as [tok exp|err|data|err|n|r|].
  7: { unfold deliver. destruct (helper w) as [h|] eqn:Hh; cbn [non_null].
       - split; [apply teardown_flows, delete_this_teardown|].
         intros w' E h' Hh'.
         destruct (delete_this_frame w) as (_ & _ & _ & F).
         destruct (F _ E) as (_ & [?|(h0 & Hh0 & [?|?])]); simplify_eq;
           destruct h; (eexists; split; [exact Hh|]); cbn; eauto.
       - split; [constructor|]. intros w' [= <-] h' Hh'. congruence. }
  5: destruct n.
  all: unfold_handlers.
  all: shapes Hs; exec; try done;
    try (match goal with
         | H : RequestCompleted ?w = _ |- _ =>
             let T := fresh "T" in
             pose proof (RequestCompleted_teardown w) as T; rewrite H in T;
             unfold teardown_only in T; cbn [effects] in T
         end;
         use_frame RequestCompleted_frame).
  all: unfold token_step; cbn [effects state_of]; split.
  all: try (repeat (apply List.Forall_cons;
                    [cbn [flows_ok helper user_info_fetcher_
                          registration_type_ oauth_access_token_ non_null];
                     first [ exact I
                           | by (eexists; repeat split)
                           | by (split; [|eexists]) ]|]);
            first [ apply List.Forall_nil
                  | by apply teardown_flows
                  | apply teardown_flows;
                    match goal with
                    | H : Forall _ ?t |- _ =>
                        apply (eq_ind (t ++ []) (Forall _));
                        [by rewrite app_nil_r|reflexivity]
                    end ]).
  all: intros w' [= <-] h' Hh'; cases_of_frame; cbn [helper] in *;
    simplify_eq; unfold set_client_;
    (eexists; split; [reflexivity|]);
    cbn [registration_type_ user_info_fetcher_ oauth_access_token_ non_null];
    (split; [reflexivity|]); intros ?;
    first [ by left | right; by (split; [|eexists]) ].
Qed.

Lemma said_ok_step s seen e es w eff :
  holds_token s seen w → flows_ok e w eff → said_ok s (seen ++ e :: es) eff.
Proof.
  intros J. destruct eff; simpl; try done.
  - intros (h & Hh & Hu & -> & -> & -> & -> & ->).
    destruct (J _ Hh) as (-> & Ht). destruct (Ht Hu) as (? & exp & Hin).
    repeat split; try done. exists exp. apply in_or_app. by left.
  - intros (? & exp & ->). split; [done|]. exists exp.
    apply in_or_app. right. by left.
Qed.

Lemma holds_token_step s seen e w w' :
  holds_token s seen w → carries e w w' → holds_token s (seen ++ [e]) w'.
Proof.
  intros J C h' Hh'. destruct (C _ Hh') as (h & Hh & Ty & Tk).
  destruct (J _ Hh) as (Ty0 & Tk0). split; [congruence|].
  intros Hu. destruct (Tk Hu) as [[Hu0 Eq]|[Hne [exp ->]]].
  - destruct (Tk0 Hu0) as (? & exp & Hin). rewrite Eq. split; [done|].
    exists exp. apply in_or_app. by left.
  - split; [done|]. exists exp. apply in_or_app. right. by left.
Qed.

Lemma deliver_all_said cfg s es : ∀ seen w,
  started cfg w = true → holds_token s seen w →
  Forall (said_ok s (seen ++ es)) (effects (deliver_all cfg es w)).
Proof.
  induction es as [|e es IH]; intros seen w Hs J; simpl; [constructor|].
  destruct (deliver_token_step cfg e w Hs) as [F C].
  destruct (deliver_summary cfg e w Hs) as (_ & _ & _ & G).
  unfold bind. destruct (deliver cfg e w) as [t1 [] w1|t1 f];
    cbn [effects state_of] in *.
  - rewrite effects_after. apply Forall_app. split.
    + eapply Forall_impl; [exact F|]. intros eff. by apply said_ok_step.
    + destruct (G _ eq_refl) as (Hs1 & _).
      replace (seen ++ e :: es) with ((seen ++ [e]) ++ es)
        by (by rewrite <- app_assoc).
      apply IH; [done|]. eapply holds_token_step; eauto.
  - eapply Forall_impl; [exact F|]. intros eff. by apply said_ok_step.
Qed.

Lemma begin_said cfg s :
  Forall (said_ok s []) (effects (begin cfg s (before s))) ∧
  ∀ w, state_of (begin cfg s (before s)) = Some w → holds_token s [] w.
Proof.
  destruct s as [x [X r] force type [ts u|tok] cb].
  all: unfold_start.
  all: exec; cbn [effects state_of]; split; try done;
    repeat (apply List.Forall_cons; [exact I|]); try apply List.Forall_nil.
  all: intros w [= <-] h [= <-]; by split.
Qed.

Lemma said_ok_nil s es eff : said_ok s [] eff → said_ok s es eff.
Proof.
  destruct eff; simpl; try done.
  - by intros (_ & _ & _ & _ & _ & ? & []).
  - by intros (_ & ? & []).
Qed.

(** X11. Where the token goes. In any attempt, every user-info lookup is
    started with a non-empty token that a token answer delivered, and every
    call of [Register] carries the configured registration type, such a
    token, an empty client id, no auto-enrollment and an empty requisition. *)
Theorem token_reaches_register cfg s es :
  compiled cfg (how s) = true →
  Forall (said_ok s es) (effects (attempt cfg s es)).
Proof.
  intros Hc. destruct (begin_said cfg s) as [F0 J0].
  destruct (begin_facts cfg s Hc) as (_ & _ & G0).
  unfold attempt, bind.
  destruct (begin cfg s (before s)) as [t0 [] w0|t0 f0];
    cbn [effects state_of] in *.
  - rewrite effects_after. apply Forall_app. split.
    + eapply Forall_impl; [exact F0|]. apply said_ok_nil.
    + destruct (G0 _ eq_refl) as (Hs0 & _).
      apply (deliver_all_said cfg s es [] w0 Hs0 (J0 _ eq_refl)).
  - eapply Forall_impl; [exact F0|]. apply said_ok_nil.
Qed.

Lemma token_reaches_register_witness :
  let es := [TokenSuccess "tok123"%string 0; GetUserInfoSuccess hosted] in
  Forall (said_ok alice es) (effects (attempt desktop_debug alice es)).
Proof.
  intros es. apply (token_reaches_register desktop_debug alice es).
  reflexivity.
Defined.

(** ** One lookup, one registration *)

Lemma deliver_spends cfg e w :
  started cfg w = true → spends w (deliver cfg e w).
Proof.
  intros Hs. destruct e as [tok exp|err|data|err|n|r|].
  7: { destruct (owner_deletes_frame cfg w Hs) as (R & N & _ & F).
       unfold spends. rewrite R, N. repeat split; try lia.
       all: destruct (F _ H) as [_ Hn];
         unfold token_pending, live_helpers; rewrite Hn; lia. }
  5: destruct n.
  all: unfold_handlers.
  all: shapes Hs; exec; try use_frame RequestCompleted_frame.
  all: unfold spends; cbn [effects state_of]; repeat split; intros;
    simplify_eq; cases_of_frame; cbn [helper] in *; simplify_eq;
    unfold token_pending, live_helpers, set_client_ in *;
    repeat match goal with H : helper _ = _ |- _ => rewrite H end;
    observe; cbn [orb b2n Nat.add]; try lia.
Qed.

Lemma deliver_all_spends cfg es : ∀ w,
  started cfg w = true → spends w (deliver_all cfg es w).
Proof.
  induction es as [|e es IH]; intros w Hs; simpl.
  - unfold spends, ret; cbn [effects state_of count]. repeat split; try lia.
    all: intros; simplify_eq; lia.
  - destruct (deliver_spends cfg e w Hs) as (N1 & R1 & F1).
    destruct (deliver_summary cfg e w Hs) as (_ & _ & _ & G1).
    unfold bind. destruct (deliver cfg e w) as [t1 [] w1|t1 f];
      cbn [effects state_of] in *; [|by repeat split].
    destruct (G1 _ eq_refl) as (Hs1 & _).
    destruct (IH w1 Hs1) as (N2 & R2 & F2).
    destruct (F1 _ eq_refl) as (N1' & R1').
    unfold spends. rewrite effects_after, state_of_after, !count_app.
    repeat split; try lia.
    all: destruct (F2 _ H) as (N2' & R2'); lia.
Qed.

(** X12. One lookup, one registration. In any attempt the helper builds at
    most one [UserInfoFetcher] and calls [Register] at most once, however
    many token and user-info answers arrive and whatever they hold. *)
Theorem at_most_one_registration cfg s es :
  compiled cfg (how s) = true →
  count is_New_UserInfoFetcher (effects (attempt cfg s es)) ≤ 1 ∧
  count is_Register (effects (attempt cfg s es)) ≤ 1.
Proof.
  intros Hc. destruct (begin_facts cfg s Hc) as (_ & _ & F0).
  destruct (begin_state cfg s) as (R0 & N0 & _).
  unfold attempt, bind.
  destruct (begin cfg s (before s)) as [t0 [] w0|t0 f0];
    cbn [effects state_of] in *; [|lia].
  destruct (F0 _ eq_refl) as (Hs0 & _ & O0).
  destruct (deliver_all_spends cfg es w0 Hs0) as (N1 & R1 & _).
  assert (live_helpers w0 ≤ 1 ∧ token_pending w0 ≤ 1) as [L T].
  { clear -Hs0. unfold token_pending. shapes Hs0; cbn; lia. }
  rewrite effects_after, !count_app. lia.
Qed.

Lemma at_most_one_registration_witness :
  let es := [TokenSuccess "tok123"%string 0; TokenSuccess "tok456"%string 0;
             GetUserInfoSuccess hosted; GetUserInfoSuccess hosted] in
  count is_New_UserInfoFetcher (effects (attempt desktop_debug alice es)) ≤ 1 ∧
  count is_Register (effects (attempt desktop_debug alice es)) ≤ 1.
Proof.
  intros es. apply (at_most_one_registration desktop_debug alice es).
  reflexivity.
Defined.

(** ** Calls on the client *)

Lemma quiet_mono b t :
  quiet_after_callback true t = true → quiet_after_callback b t = true.
Proof.
  revert b. induction t as [|e t IH]; intros b; simpl; [done|].
  intros [H1 H2]%andb_true_iff. apply andb_true_iff. split.
  - by destruct b.
  - by apply IH.
Qed.

Lemma quiet_app b t1 t2 :
  quiet_after_callback b (t1 ++ t2)
  = quiet_after_callback b t1
    && quiet_after_callback (b || negb (count is_Run_Closure t1 =? 0)) t2.
Proof.
  revert b. induction t1 as [|e t1 IH]; intros b; simpl.
  - by rewrite orb_false_r.
  - rewrite IH, <- andb_assoc. f_equal. f_equal.
    by destruct b, (is_Run_Closure e).
Qed.

Lemma quiet_count t :
  count is_client_call t = 0 → quiet_after_callback true t = true.
Proof.
  induction t as [|e t IH]; simpl; [done|].
  destruct (is_client_call e); simpl; [lia|]. auto.
Qed.

Lemma delete_this_quiet w :
  pending w = false → count is_client_call (effects (delete_this w)) = 0.
Proof.
  unfold delete_this, destructor.
  destruct w as [x [[ctx p force type cb tsh lth uif tok]|] c];
    cbn [pending helper client_ non_null]; intros Hp; exec; done.
Qed.

Lemma frame_not_pending w o w' :
  frame w o → state_of o = Some w' → pending w = false → pending w' = false.
Proof.
  intros (_ & _ & _ & F) E Hp.
  destruct (F _ E) as (_ & [Hn|(h & Hh & [H'|H'])]);
    unfold pending in *; rewrite ?Hn, ?H'; rewrite ?Hh in Hp; done.
Qed.

Lemma perform_all_quiet cb : ∀ w,
  pending w = false → count is_client_call (effects (perform_all cb w)) = 0.
Proof.
  induction cb as [|a cb IH]; intros w Hp; simpl; [done|].
  unfold bind.
  assert (count is_client_call (effects (perform a w)) = 0 ∧
          ∀ w1, state_of (perform a w) = Some w1 → pending w1 = false)
    as [C1 F1].
  { destruct a; simpl.
    - split; [by apply delete_this_quiet|]. intros w1 E.
      by eapply frame_not_pending; [apply delete_this_frame|..].
    - unfold free_the_client. destruct w as [x h [c|]]; simpl; split;
        try done; by intros w1 [= <-]. }
  destruct (perform a w) as [t1 [] w1|t1 f]; cbn [effects state_of] in *;
    [|done].
  rewrite effects_after, count_app, C1. by apply IH, F1.
Qed.

Lemma RequestCompleted_quiet w : hands_off w (RequestCompleted w).
Proof.
  unfold hands_off, RequestCompleted, Closure_Run.
  destruct w as [x [[ctx p force type cb tsh lth uif tok]|] c];
    cbn [pending helper client_ non_null]; exec; try done.
  all: match goal with
       | H : perform_all ?cb ?w = _ |- _ =>
           let Q := fresh in
           assert (Q : count is_client_call (effects (perform_all cb w)) = 0)
             by (by apply perform_all_quiet);
           rewrite H in Q; cbn [effects] in Q
       end.
  all: cbn [quiet_after_callback is_client_call is_Run_Closure negb andb orb
            effects]; by apply quiet_count.
Qed.

Lemma deliver_quiet cfg e w :
  started cfg w = true → hands_off w (deliver cfg e w).
Proof.
  intros Hs. destruct e as [tok exp|err|data|err|n|r|].
  5: destruct n.
  all: unfold_handlers; unfold delete_this, destructor.
  all: shapes Hs; exec.
  all: try match goal with
           | H : RequestCompleted ?w = _ |- _ =>
               let Q := fresh in
               pose proof (RequestCompleted_quiet w) as Q;
               unfold hands_off in Q; rewrite H in Q; clear H
           end.
  all: unfold hands_off;
    cbn [quiet_after_callback is_client_call is_Run_Closure negb andb orb
         effects pending helper client_ non_null set_client_] in *;
    first [done | by apply quiet_mono | by apply quiet_count].
Qed.

Lemma deliver_all_quiet cfg es : ∀ w,
  started cfg w = true → hands_off w (deliver_all cfg es w).
Proof.
  induction es as [|e es IH]; intros w Hs; simpl; [done|].
  pose proof (deliver_quiet cfg e w Hs) as Q1.
  pose proof (deliver_summary cfg e w Hs) as S1.
  destruct S1 as (_ & C1 & _ & G1).
  unfold bind, hands_off in *.
  destruct (deliver cfg e w) as [t1 [] w1|t1 f] eqn:E;
    cbn [effects state_of] in *; [|done].
  destruct (G1 _ eq_refl) as (Hs1 & _ & _ & D1 & P1).
  specialize (IH w1 Hs1).
  rewrite effects_after, quiet_app, Q1. cbn [andb].
  destruct (negb (pending w) || negb (count is_Run_Closure t1 =? 0)) eqn:Hf;
    [|destruct (pending w1); [done|by apply quiet_mono]].
  assert (pending w1 = false) as Hp1; [|by rewrite Hp1 in IH].
  destruct (helper w1) as [h1|] eqn:Hh1; [|unfold pending; by rewrite Hh1].
  specialize (P1 (ltac:(eauto))).
  destruct (pending w1); [|done]. exfalso.
  destruct (pending w); simpl in *; [|lia].
  apply negb_true_iff, Nat.eqb_neq in Hf. lia.
Qed.

(** X13. Hands off the client after completion. In any attempt, once the
    completion callback has run the helper makes no further call on the
    client (no [AddObserver], [RemoveObserver] or [Register]), whatever the
    callback did and whatever answers arrive later. *)
Theorem client_untouched_after_callback cfg s es :
  compiled cfg (how s) = true →
  quiet_after_callback false (effects (attempt cfg s es)) = true.
Proof.
  intros Hc. destruct (begin_facts cfg s Hc) as (C0 & _ & F0).
  assert (quiet_after_callback false (effects (begin cfg s (before s)))
          = true) as Q0.
  { clear. destruct s as [x [X r] force type [ts u|tok] cb].
    all: unfold_start.
    all: exec; done. }
  unfold attempt, bind.
  destruct (begin cfg s (before s)) as [t0 [] w0|t0 f0];
    cbn [effects state_of] in *; [|done].
  destruct (F0 _ eq_refl) as (Hs0 & Hp0 & _).
  pose proof (deliver_all_quiet cfg es w0 Hs0) as Q. unfold hands_off in Q.
  rewrite Hp0 in Q. by rewrite effects_after, quiet_app, Q0, C0.
Qed.

Lemma client_untouched_after_callback_witness :
  quiet_after_callback false
    (effects (attempt desktop_debug alice
                [Notify ClientError; TokenSuccess "tok123"%string 0;
                 GetUserInfoFailure 1])) = true.
Proof.
  apply (client_untouched_after_callback desktop_debug alice). reflexivity.
Defined.
